(** * ProcessUtils: cross-platform process and shell resolution

    A shallow embedding of [web/src/server/pty/process-utils.ts]
    (class [ProcessUtils]) and the properties of it that the design document
    states.

    The class is stateful in two ways: it owns one memoised flag
    ([_isWSL2]) and it talks to the operating system (the file system, the
    environment, child processes, signals, the clock).  Both are threaded
    through a state-and-exception monad over a [World]; every interaction
    with the outside is recorded in a trace, so that "performs no probe" is a
    statement about that trace. *)

From Stdlib Require Import ZArith Ascii String List Bool Lia.
From Stdlib Require Import Numbers.DecimalString Numbers.DecimalPos.
From stdpp Require Import base option gmap strings.

Local Open Scope Z_scope.
Local Open Scope string_scope.
Local Open Scope list_scope.
Import ListNotations.

(** ** JavaScript strings

    A string is the UTF-8 encoding of its text, one [ascii] per byte:
    this is how the class receives every text it inspects ([readFileSync]
    and [spawnSync] are called with the encoding ['utf8']).  Searching for a
    substring is exact on that encoding.  Letter case is modelled for the
    letters A to Z, which is what the markers searched for are made of;
    white space is the full set that [trim] and [parseInt] strip. *)

Module Js.

(** [s.includes(p)] *)
Fixpoint includes (s p : string) : bool :=
  String.prefix p s ||
  match s with
  | EmptyString => false
  | String _ s' => includes s' p
  end.

(** [s.endsWith(suffix)] *)
Definition endsWith (s suffix : string) : bool :=
  let n := String.length s in
  let m := String.length suffix in
  (m <=? n)%nat && String.eqb (substring (n - m) m s) suffix.

Definition lower_char (c : ascii) : ascii :=
  let n := nat_of_ascii c in
  if ((65 <=? n) && (n <=? 90))%nat then ascii_of_nat (n + 32) else c.

(** [s.toLowerCase()] *)
Fixpoint toLowerCase (s : string) : string :=
  match s with
  | EmptyString => EmptyString
  | String c s' => String (lower_char c) (toLowerCase s')
  end.

(** White space as [trim] sees it: the characters [WhiteSpace] and
    [LineTerminator] of ECMAScript.  Those of one byte: TAB, LF, VT, FF,
    CR, SP. *)
Definition is_space (c : ascii) : bool :=
  let n := nat_of_ascii c in
  ((9 <=? n) && (n <=? 13) || (n =? 32))%nat.

(** Of two bytes: U+00A0 (C2 A0). *)
Definition is_space2 (c1 c2 : ascii) : bool :=
  ((nat_of_ascii c1 =? 194) && (nat_of_ascii c2 =? 160))%nat.

(** Of three bytes: U+1680 (E1 9A 80), U+2000 to U+200A (E2 80 80 to
    E2 80 8A), U+2028, U+2029 and U+202F (E2 80 A8, A9 and AF), U+205F
    (E2 81 9F), U+3000 (E3 80 80) and the byte order mark U+FEFF
    (EF BB BF). *)
Definition is_space3 (c1 c2 c3 : ascii) : bool :=
  let n1 := nat_of_ascii c1 in
  let n2 := nat_of_ascii c2 in
  let n3 := nat_of_ascii c3 in
  ((n1 =? 225) && (n2 =? 154) && (n3 =? 128)
   || (n1 =? 226) && (n2 =? 128) &&
      ((128 <=? n3) && (n3 <=? 138) || (n3 =? 168) || (n3 =? 169) || (n3 =? 175))
   || (n1 =? 226) && (n2 =? 129) && (n3 =? 159)
   || (n1 =? 227) && (n2 =? 128) && (n3 =? 128)
   || (n1 =? 239) && (n2 =? 187) && (n3 =? 191))%nat.

(** [s.trimStart()] *)
Fixpoint trimStart (s : string) : string :=
  match s with
  | EmptyString => EmptyString
  | String c1 s1 =>
      if is_space c1 then trimStart s1
      else
        match s1 with
        | EmptyString => s
        | String c2 s2 =>
            if is_space2 c1 c2 then trimStart s2
            else
              match s2 with
              | EmptyString => s
              | String c3 s3 =>
                  if is_space3 c1 c2 c3 then trimStart s3 else s
              end
        end
  end.

(** A text of white space only. *)
Definition blank (s : string) : bool :=
  String.eqb (trimStart s) EmptyString.

(** [s.trimEnd()]: the text is cut where only white space follows. *)
Fixpoint trimEnd (s : string) : string :=
  match s with
  | EmptyString => EmptyString
  | String c s' =>
      if blank (String c s') then EmptyString else String c (trimEnd s')
  end.

(** [s.trim()] *)
Definition trim (s : string) : string := trimEnd (trimStart s).

(** A string used as a condition: the empty string is falsy. *)
Definition truthy (s : string) : bool := negb (String.eqb s EmptyString).

(** A nullable string used as a condition. *)
Definition truthy_opt (o : option string) : bool :=
  match o with
  | Some s => truthy s
  | None => false
  end.

(** [a || b] on a nullable string and a default. *)
Definition or_default (o : option string) (d : string) : string :=
  match o with
  | Some s => if truthy s then s else d
  | None => d
  end.

(** [l.join(sep)] *)
Definition join (sep : string) (l : list string) : string :=
  String.concat sep l.

(** [`${n}`] for an integer [n]: its decimal numeral. *)
Definition number_toString (n : Z) : string :=
  NilZero.string_of_int (Z.to_int n).

Definition bool_toString (b : bool) : string :=
  if b then "true" else "false".

End Js.

(** ** Values of the runtime *)

(** A thrown value: a JavaScript [Error], with the [code] field that
    [NodeJS.ErrnoException] adds. *)
Record JsError : Type := mkError {
  err_message : string;
  err_code : option string
}.

Inductive Result (A : Type) : Type :=
| Val (a : A)
| Throw (e : JsError).
Arguments Val {A} a.
Arguments Throw {A} e.

(** [NodeJS.Signals | number] *)
Inductive Signal : Type :=
| SigName (name : string)
| SigNum (n : Z).

Definition signal_toString (s : Signal) : string :=
  match s with
  | SigName name => name
  | SigNum n => Js.number_toString n
  end.

(** What [spawnSync] hands back: [status] is [null] when the child could
    not be started or was killed by the timeout. *)
Record SpawnResult : Type := mkSpawn {
  status : option Z;
  stdout : option string
}.

Definition status_toString (st : option Z) : string :=
  match st with
  | Some n => Js.number_toString n
  | None => "null"
  end.

(** The operating system as one interaction sees it. *)
Record Env : Type := mkEnv {
  fs_exists : string -> bool;
  fs_read : string -> Result string;
  spawn : string -> list string -> Result SpawnResult;
  kill : Z -> Signal -> option JsError;
  user_shell : Result (option string);
  now : Z
}.

(** The interactions with the operating system. *)
Inductive Event : Type :=
| EvExists (path : string)
| EvReadFile (path : string)
| EvEnv (name : string)
| EvSpawn (cmd : string) (argv : list string)
| EvKill (pid : Z) (sig : Signal)
| EvUserInfo
| EvNow
| EvSleep (ms : Z).

Inductive Colour : Type := Green | Red | Yellow.
Inductive LogLevel : Type := LvLog | LvWarn | LvDebug.
Inductive LogArg : Type :=
| Plain (s : string)
| Styled (c : Colour) (s : string)
| Caught (e : JsError).

(** ** The world

    [platform] is [process.platform], fixed for the life of the process;
    [env_vars] is [process.env], an object in the process's own memory.
    [oracle n] is the operating system as the [n]-th interaction finds it:
    other processes may create or delete files, start or die between any two
    interactions.  [_isWSL2] is the class's static field, [null] being
    [None].  [trace] and [log] are kept newest first. *)
Record World : Type := mkWorld {
  platform : string;
  env_vars : gmap string string;
  oracle : nat -> Env;
  _isWSL2 : option bool;
  trace : list Event;
  log : list (LogLevel * list LogArg)
}.

(** The environment the next interaction will observe. *)
Definition cur (w : World) : Env := oracle w (length (trace w)).

Definition set_isWSL2 (b : bool) (w : World) : World :=
  mkWorld (platform w) (env_vars w) (oracle w) (Some b) (trace w) (log w).

Definition record_event (e : Event) (w : World) : World :=
  mkWorld (platform w) (env_vars w) (oracle w) (_isWSL2 w) (e :: trace w)
    (log w).

Definition record_log (l : LogLevel) (a : list LogArg) (w : World) : World :=
  mkWorld (platform w) (env_vars w) (oracle w) (_isWSL2 w) (trace w)
    ((l, a) :: log w).

(** Everything outside the class replaced wholesale (the environment
    variables and the operating system), the memoised flag, the trace and the
    log kept. *)
Definition disturb (vars : gmap string string) (o : nat -> Env) (w : World)
  : World :=
  mkWorld (platform w) vars o (_isWSL2 w) (trace w) (log w).

(** ** State and exceptions *)

Definition M (A : Type) : Type := World -> Result A * World.

Definition ret {A} (a : A) : M A := fun w => (Val a, w).

Definition throw {A} (e : JsError) : M A := fun w => (Throw e, w).

Definition bind {A B} (m : M A) (k : A -> M B) : M B :=
  fun w =>
    match m w with
    | (Val a, w') => k a w'
    | (Throw e, w') => (Throw e, w')
    end.

(** [try { body } catch (error) { handler }] *)
Definition try_catch {A} (body : M A) (handler : JsError -> M A) : M A :=
  fun w =>
    match body w with
    | (Val a, w') => (Val a, w')
    | (Throw e, w') => handler e w'
    end.

Declare Scope js_scope.
Delimit Scope js_scope with js.
Notation "x <- m ;; k" := (bind m (fun x => k))
  (at level 100, m at next level, right associativity) : js_scope.
Notation "m ;;; k" := (bind m (fun _ => k))
  (at level 100, right associativity) : js_scope.
Local Open Scope js_scope.

Definition lift {A} (r : Result A) : M A := fun w => (r, w).

(** One interaction: note it, and read the operating system as it is now. *)
Definition observe (e : Event) : M Env :=
  fun w => (Val (cur w), record_event e w).

Definition get_platform : M string := fun w => (Val (platform w), w).
Definition get_isWSL2 : M (option bool) := fun w => (Val (_isWSL2 w), w).
Definition put_isWSL2 (b : bool) : M unit := fun w => (Val tt, set_isWSL2 b w).

(** Node primitives. *)
Definition existsSync (p : string) : M bool :=
  env <- observe (EvExists p) ;; ret (fs_exists env p).

Definition readFileSync (p : string) : M string :=
  env <- observe (EvReadFile p) ;; lift (fs_read env p).

Definition process_env (name : string) : M (option string) :=
  fun w => (Val (env_vars w !! name), record_event (EvEnv name) w).

Definition spawnSync (cmd : string) (argv : list string) : M SpawnResult :=
  env <- observe (EvSpawn cmd argv) ;; lift (spawn env cmd argv).

Definition process_kill (pid : Z) (sig : Signal) : M unit :=
  env <- observe (EvKill pid sig) ;;
  match kill env pid sig with
  | None => ret tt
  | Some e => throw e
  end.

Definition os_userInfo_shell : M (option string) :=
  env <- observe EvUserInfo ;; lift (user_shell env).

Definition Date_now : M Z :=
  env <- observe EvNow ;; ret (now env).

Definition sleep (ms : Z) : M unit :=
  _ <- observe (EvSleep ms) ;; ret tt.

(** Modelled from the spec: the logger ([utils/logger.js]) is not among the
    sources; it is a diagnostic side channel that never affects control
    flow, so a call appends its arguments to [log] and returns. *)
Definition logger (l : LogLevel) (a : list LogArg) : M unit :=
  fun w => (Val tt, record_log l a w).

(** ** The class *)

(** The double quote character, and the one-character string of it. *)
Definition quote_char : ascii := ascii_of_nat 34.

Definition dquote : string := String quote_char EmptyString.

(** [x === 0] on a nullable status. *)
Definition status_is_zero (st : option Z) : bool :=
  match st with
  | Some n => (n =? 0)%Z
  | None => false
  end.

(** [err.code === c] *)
Definition code_is (err : JsError) (c : string) : bool :=
  match err_code err with
  | Some c' => String.eqb c' c
  | None => false
  end.

Definition wslEnvVars : list string :=
  ["WSL_DISTRO_NAME"; "WSL_INTEROP"; "WSLENV"].

(** [names.some((envVar) => process.env[envVar])] *)
Fixpoint some_env (names : list string) : M bool :=
  match names with
  | [] => ret false
  | envVar :: rest =>
      v <- process_env envVar ;;
      if Js.truthy_opt v then ret true else some_env rest
  end.

(** The [/proc/version] block of [isWSL2]: [Some b] when it returns [b],
    [None] when control falls through to the environment variables. *)
Definition check_proc_version : M (option bool) :=
  present <- existsSync "/proc/version" ;;
  if present then
    content <- readFileSync "/proc/version" ;;
    let versionContent := Js.toLowerCase content in
    let isWSL :=
      Js.includes versionContent "microsoft" || Js.includes versionContent "wsl" in
    let isWSL2 := Js.includes versionContent "wsl2" in
    if isWSL && isWSL2 then
      put_isWSL2 true ;;;
      logger LvLog [Styled Green "WSL2 environment detected"] ;;;
      ret (Some true)
    else if isWSL && negb isWSL2 then
      put_isWSL2 false ;;;
      logger LvWarn
        [Styled Red "WSL1 detected - WSL1 is not supported. Please upgrade to WSL2."] ;;;
      logger LvWarn
        [Styled Yellow ("Run " +:+ dquote +:+ "wsl --set-version <distro> 2" +:+ dquote +:+ " to upgrade to WSL2")] ;;;
      ret (Some false)
    else ret None
  else ret None.

Definition isWSL2 : M bool :=
  cached <- get_isWSL2 ;;
  match cached with
  | Some b => ret b
  | None =>
      try_catch
        (p <- get_platform ;;
         if negb (String.eqb p "linux") then
           put_isWSL2 false ;;; ret false
         else
           early <- check_proc_version ;;
           match early with
           | Some b => ret b
           | None =>
               hasWSLEnv <- some_env wslEnvVars ;;
               if hasWSLEnv then
                 logger LvLog
                   [Styled Yellow "WSL environment detected via environment variables"] ;;;
                 logger LvWarn
                   [Styled Red "Unable to confirm WSL2 - this may be WSL1 which is not supported"] ;;;
                 put_isWSL2 false ;;;
                 ret false
               else
                 put_isWSL2 false ;;; ret false
           end)
        (fun error =>
           logger LvWarn [Plain "Failed to detect WSL2 environment:"; Caught error] ;;;
           put_isWSL2 false ;;;
           ret false)
  end.

(** Returns ['win32' | 'darwin' | 'linux' | 'wsl2']. *)
Definition getPlatformType : M string :=
  wsl2 <- isWSL2 ;;
  if wsl2 then ret "wsl2" else get_platform.

(** [!pid || pid <= 0] on an integer. *)
Definition bad_pid (pid : Z) : bool := (pid =? 0)%Z || (pid <=? 0)%Z.

(** Windows-specific process check using [tasklist]. *)
Definition isProcessRunningWindows (pid : Z) : M bool :=
  try_catch
    (logger LvDebug
       [Plain ("checking windows process " +:+ Js.number_toString pid +:+ " with tasklist")] ;;;
     result <- spawnSync "tasklist"
                 ["/FI"; "PID eq " +:+ Js.number_toString pid; "/NH"; "/FO"; "CSV"] ;;
     let failed :=
       logger LvDebug
         [Plain ("tasklist command failed with status " +:+ status_toString (status result))] ;;;
       ret false in
     match stdout result with
     | Some out =>
         if status_is_zero (status result) && Js.truthy out then
           let exists_ :=
             Js.includes out (dquote +:+ Js.number_toString pid +:+ dquote) in
           logger LvDebug
             [Plain ("process " +:+ Js.number_toString pid +:+ " exists: " +:+ Js.bool_toString exists_)] ;;;
           ret exists_
         else failed
     | None => failed
     end)
    (fun error =>
       logger LvWarn
         [Plain ("windows process check failed for PID " +:+ Js.number_toString pid +:+ ":");
          Caught error] ;;;
       ret false).

(** Unix-like systems process check using kill signal 0. *)
Definition isProcessRunningUnix (pid : Z) : M bool :=
  try_catch
    (process_kill pid (SigNum 0) ;;; ret true)
    (fun err => if code_is err "EPERM" then ret true else ret false).

Definition isProcessRunning (pid : Z) : M bool :=
  if bad_pid pid then ret false
  else
    try_catch
      (platformType <- getPlatformType ;;
       if String.eqb platformType "win32" then isProcessRunningWindows pid
       else isProcessRunningUnix pid)
      (fun error =>
         logger LvWarn
           [Plain ("error checking if process " +:+ Js.number_toString pid +:+ " is running:");
            Caught error] ;;;
         ret false).

(** [{ pid: number; exists: boolean }] *)
Record ProcessInfo : Type := mkProcessInfo {
  info_pid : Z;
  info_exists : bool
}.

(** [null] is [None]. *)
Definition getProcessInfo (pid : Z) : M (option ProcessInfo) :=
  running <- isProcessRunning pid ;;
  if negb running then ret None
  else ret (Some (mkProcessInfo pid true)).

(** [signal] defaults to ['SIGTERM']. *)
Definition SIGTERM : Signal := SigName "SIGTERM".

Definition killProcess (pid : Z) (signal : Signal) : M bool :=
  if bad_pid pid then ret false
  else
    logger LvDebug
      [Plain ("attempting to kill process " +:+ Js.number_toString pid +:+ " with signal " +:+ signal_toString signal)] ;;;
    try_catch
      (p <- get_platform ;;
       if String.eqb p "win32" then
         result <- spawnSync "taskkill" ["/PID"; Js.number_toString pid; "/F"] ;;
         if status_is_zero (status result) then
           logger LvLog
             [Styled Green ("process " +:+ Js.number_toString pid +:+ " killed successfully")] ;;;
           ret true
         else
           logger LvDebug
             [Plain ("taskkill failed with status " +:+ status_toString (status result))] ;;;
           ret false
       else
         process_kill pid signal ;;;
         logger LvLog
           [Styled Green ("signal " +:+ signal_toString signal +:+ " sent to process " +:+ Js.number_toString pid)] ;;;
         ret true)
      (fun error =>
         logger LvWarn
           [Plain ("error killing process " +:+ Js.number_toString pid +:+ ":"); Caught error] ;;;
         ret false).

Definition checkInterval : Z := 100.

(** The [while] loop of [waitForProcessExit]; [None] is "still looping when
    the fuel ran out". *)
Fixpoint wait_loop (fuel : nat) (pid timeoutMs startTime : Z) : M (option bool) :=
  match fuel with
  | O => ret None
  | S fuel' =>
      t <- Date_now ;;
      if (t - startTime <? timeoutMs)%Z then
        running <- isProcessRunning pid ;;
        if negb running then
          t' <- Date_now ;;
          let elapsed := (t' - startTime)%Z in
          logger LvLog
            [Styled Green ("process " +:+ Js.number_toString pid +:+ " exited after " +:+ Js.number_toString elapsed +:+ "ms")] ;;;
          ret (Some true)
        else
          sleep checkInterval ;;;
          wait_loop fuel' pid timeoutMs startTime
      else
        logger LvLog
          [Styled Yellow ("process " +:+ Js.number_toString pid +:+ " did not exit within " +:+ Js.number_toString timeoutMs +:+ "ms timeout")] ;;;
        ret (Some false)
  end.

(** The promise is modelled by the value it resolves to; awaiting the timer
    is the [EvSleep] interaction.  [timeoutMs] defaults to [5000]. *)
Definition waitForProcessExit (fuel : nat) (pid timeoutMs : Z) : M (option bool) :=
  startTime <- Date_now ;;
  logger LvDebug
    [Plain ("waiting for process " +:+ Js.number_toString pid +:+ " to exit (timeout: " +:+ Js.number_toString timeoutMs +:+ "ms)")] ;;;
  wait_loop fuel pid timeoutMs startTime.

Definition shells : list string :=
  ["bash"; "zsh"; "sh"; "fish"; "dash"; "ksh"; "tcsh"; "csh"].

Definition interactiveFlags : list string :=
  ["-i"; "--interactive"; "-l"; "--login"].

(** Check if this is an interactive shell session. *)
Definition isInteractiveShellCommand (cmdName : string) (args : list string) : bool :=
  let isShell :=
    existsb (fun shell => String.eqb cmdName shell || Js.endsWith cmdName ("/" +:+ shell)) shells in
  if negb isShell then false
  else if (length args =? 0)%nat then true
  else existsb (fun arg => existsb (String.eqb arg) interactiveFlags) args.

(** [path.join] on Windows, for the segments the class passes: joined by a
    backslash.  (Node also normalises the result; nothing below depends on
    the shape of the joined path.) *)
Definition path_join (segments : list string) : string :=
  Js.join "\" segments.

(** [try { const result = probe; if (result.status === 0) return ... } catch (_) {}]:
    [true] when the [return] is reached. *)
Definition probe_ok (probe : M SpawnResult) : M bool :=
  try_catch
    (result <- probe ;; ret (status_is_zero (status result)))
    (fun _ => ret false).

(** [for (const c of candidates) { try { ... return c } catch (_) {} }],
    [None] when the loop ends without returning. *)
Fixpoint first_spawning (probe : string -> M SpawnResult) (candidates : list string)
  : M (option string) :=
  match candidates with
  | [] => ret None
  | c :: rest =>
      hit <- probe_ok (probe c) ;;
      if hit then ret (Some c) else first_spawning probe rest
  end.

(** The Windows branch of [getUserShell]. *)
Definition getUserShell_win32 : M string :=
  pwsh <- probe_ok (spawnSync "pwsh" ["-Command"; "echo test"]) ;;
  if pwsh then ret "pwsh"
  else
    systemRoot <- process_env "SystemRoot" ;;
    let powershellPath :=
      path_join [Js.or_default systemRoot "C:\Windows"; "System32";
                 "WindowsPowerShell"; "v1.0"; "powershell.exe"] in
    powershell <- probe_ok (spawnSync powershellPath ["-Command"; "echo test"]) ;;
    if powershell then ret powershellPath
    else
      programFiles <- process_env "ProgramFiles" ;;
      let gitBashPaths :=
        ["C:\Program Files\Git\bin\bash.exe";
         "C:\Program Files (x86)\Git\bin\bash.exe";
         path_join [Js.or_default programFiles "C:\Program Files"; "Git"; "bin"; "bash.exe"]] in
      gitBash <- first_spawning
                   (fun gitBashPath => spawnSync gitBashPath ["-c"; "echo test"])
                   gitBashPaths ;;
      match gitBash with
      | Some gitBashPath => ret gitBashPath
      | None =>
          comSpec <- process_env "ComSpec" ;;
          ret (Js.or_default comSpec "cmd.exe")
      end.

(** The Unix-like branch of [getUserShell]. *)
Definition getUserShell_unix (platformType : string) : M string :=
  fromUserInfo <- try_catch
                    (sh <- os_userInfo_shell ;;
                     if Js.truthy_opt sh then ret sh else ret None)
                    (fun _ => ret None) ;;
  match fromUserInfo with
  | Some sh => ret sh
  | None =>
      let commonShells :=
        if String.eqb platformType "wsl2"
        then ["/bin/bash"; "/bin/zsh"; "/usr/bin/bash"; "/usr/bin/zsh"; "/bin/sh"]
        else ["/bin/zsh"; "/bin/bash"; "/usr/bin/zsh"; "/usr/bin/bash"; "/bin/sh"] in
      found <- first_spawning (fun shell => spawnSync "test" ["-x"; shell]) commonShells ;;
      match found with
      | Some shell => ret shell
      | None => ret "/bin/sh"
      end
  end.

Definition is_unix_like (platformType : string) : bool :=
  String.eqb platformType "wsl2" || String.eqb platformType "linux"
  || String.eqb platformType "darwin".

(** [getUserShell] once [SHELL] has been found unset: the platform-specific
    defaults. *)
Definition getUserShell_default : M string :=
  platformType <- getPlatformType ;;
  if String.eqb platformType "win32" then getUserShell_win32
  else if is_unix_like platformType then getUserShell_unix platformType
  else ret "/bin/sh".

(** Get the user's preferred shell.  [return process.env.SHELL] reads the
    variable a second time. *)
Definition getUserShell : M string :=
  shellVar <- process_env "SHELL" ;;
  if Js.truthy_opt shellVar then
    again <- process_env "SHELL" ;;
    ret (Js.or_default again "")
  else getUserShell_default.

(** [{ command: string; args: string[]; useShell: boolean }] *)
Record SpawnPlan : Type := mkPlan {
  command : string;
  args : list string;
  useShell : bool
}.

(** The [which]/[where] block of [resolveCommand]: [true] when it returns
    the direct plan, [false] when control goes on to the shell. *)
Definition found_in_path (whichCommand cmdName : string) : M bool :=
  try_catch
    (result <- spawnSync whichCommand [cmdName] ;;
     match stdout result with
     | Some out =>
         if status_is_zero (status result) && Js.truthy out && Js.truthy (Js.trim out) then
           logger LvDebug
             [Plain ("Command '" +:+ cmdName +:+ "' found at: " +:+ Js.trim out)] ;;;
           ret true
         else ret false
     | None => ret false
     end)
    (fun error =>
       logger LvDebug
         [Plain ("Failed to check command existence for '" +:+ cmdName +:+ "':"); Caught error] ;;;
       ret false).

Definition resolveCommand (cmd : list string) : M SpawnPlan :=
  match cmd with
  | [] => throw (mkError "No command provided" None)
  | cmdName :: cmdArgs =>
      p <- get_platform ;;
      let whichCommand := if String.eqb p "win32" then "where" else "which" in
      found <- found_in_path whichCommand cmdName ;;
      if found then ret (mkPlan cmdName cmdArgs false)
      else
        logger LvDebug
          [Plain ("Command '" +:+ cmdName +:+ "' not found in PATH, will use shell")] ;;;
        userShell <- getUserShell ;;
        let isCommand := negb (isInteractiveShellCommand cmdName cmdArgs) in
        platformType <- getPlatformType ;;
        if String.eqb platformType "win32" then
          if Js.includes userShell "bash" then
            if isCommand then ret (mkPlan userShell ["-c"; Js.join " " cmd] true)
            else ret (mkPlan userShell ["-i"; "-c"; Js.join " " cmd] true)
          else if Js.includes userShell "pwsh" || Js.includes userShell "powershell" then
            ret (mkPlan userShell ["-NoLogo"; "-Command"; Js.join " " cmd] true)
          else
            ret (mkPlan userShell ["/C"; Js.join " " cmd] true)
        else if is_unix_like platformType then
          if isCommand then ret (mkPlan userShell ["-c"; Js.join " " cmd] true)
          else ret (mkPlan userShell ["-i"; "-c"; Js.join " " cmd] true)
        else
          ret (mkPlan cmdName cmdArgs false)
  end.

(** ** Vocabulary of the properties *)

Definition is_sleep (e : Event) : bool :=
  match e with
  | EvSleep _ => true
  | _ => false
  end.

(** [w'] is [w] some interactions later: the process is the same, what was
    observed stays observed, and nothing was slept through. *)
Definition evolves (w w' : World) : Prop :=
  platform w' = platform w /\
  env_vars w' = env_vars w /\
  oracle w' = oracle w /\
  exists evs, trace w' = evs ++ trace w /\ Forall (fun e => is_sleep e = false) evs.

(** A computation only ever moves the world forward in that sense. *)
Definition runs {A} (m : M A) : Prop := forall w, evolves w (snd (m w)).

(** A computation never throws. *)
Definition total {A} (m : M A) : Prop := forall w, exists a, fst (m w) = Val a.

(** What [getPlatformType] answers once the flag is memoised. *)
Definition platformType_of (b : bool) (p : string) : string :=
  if b then "wsl2" else p.

(** Calls of [getPlatformType] one after another; before each of them the
    environment variables and the operating system are replaced by the next
    element of [changes]. *)
Fixpoint later_calls (changes : list (gmap string string * (nat -> Env))) (w : World)
  : list (Result string) * World :=
  match changes with
  | [] => ([], w)
  | (vars, o) :: rest =>
      let (r, w1) := getPlatformType (disturb vars o w) in
      let (rs, w2) := later_calls rest w1 in
      (r :: rs, w2)
  end.

(** The two markers [isWSL2] looks for in the lower-cased kernel version. *)
Definition vendor_marker (versionContent : string) : bool :=
  Js.includes versionContent "microsoft" || Js.includes versionContent "wsl".

Definition version_marker (versionContent : string) : bool :=
  Js.includes versionContent "wsl2".

Definition wsl1_warnings : list (LogLevel * list LogArg) :=
  [(LvWarn,
    [Styled Yellow
       ("Run " +:+ dquote +:+ "wsl --set-version <distro> 2" +:+ dquote +:+ " to upgrade to WSL2")]);
   (LvWarn,
    [Styled Red "WSL1 detected - WSL1 is not supported. Please upgrade to WSL2."])].

(** The world in which [isProcessRunning] delivers the null signal: the one
    platform detection leaves behind. *)
Definition at_signal (w : World) : World := snd (getPlatformType w).

(** How [isProcessRunningUnix] reads the outcome of [process.kill]. *)
Definition signal_verdict (outcome : option JsError) : bool :=
  match outcome with
  | None => true
  | Some err => code_is err "EPERM"
  end.

(** The CSV text [tasklist /FO CSV /NH] prints: every field between double
    quotes, fields separated by commas, one line per process. *)
Definition crlf : string :=
  String (ascii_of_nat 13) (String (ascii_of_nat 10) EmptyString).

Definition quoted (field : string) : string := dquote +:+ field +:+ dquote.

Definition csv_line (fields : list string) : string :=
  String.concat "," (map quoted fields).

Fixpoint csv (rows : list (list string)) : string :=
  match rows with
  | [] => EmptyString
  | r :: rest => csv_line r +:+ crlf +:+ csv rest
  end.

Fixpoint quote_free (s : string) : bool :=
  match s with
  | EmptyString => true
  | String c s' => negb (Ascii.eqb c quote_char) && quote_free s'
  end.

Definition is_digit (c : ascii) : bool :=
  let n := nat_of_ascii c in
  ((48 <=? n) && (n <=? 57))%nat.

Definition digit_head (s : string) : bool :=
  match s with
  | String c _ => is_digit c
  | EmptyString => false
  end.

Definition no_digit_head (s : string) : bool :=
  match s with
  | String c _ => negb (is_digit c)
  | EmptyString => true
  end.

Definition tasklist_args (pid : Z) : list string :=
  ["/FI"; "PID eq " +:+ Js.number_toString pid; "/NH"; "/FO"; "CSV"].

(** Some field of some row is exactly [token]. *)
Definition has_token (token : string) (rows : list (list string)) : bool :=
  existsb (existsb (String.eqb token)) rows.

(** What [resolveCommand] makes of the answer of [which]/[where]. *)
Definition resolvable (answer : Result SpawnResult) : bool :=
  match answer with
  | Val result =>
      match stdout result with
      | Some out =>
          status_is_zero (status result) && Js.truthy out && Js.truthy (Js.trim out)
      | None => false
      end
  | Throw _ => false
  end.

Definition whichCommand_of (p : string) : string :=
  if String.eqb p "win32" then "where" else "which".

(** The world in which [waitForProcessExit] polls for the first time: after
    the two readings of the clock that precede the poll. *)
Definition at_first_poll (pid timeoutMs : Z) (w : World) : World :=
  snd ((startTime <- Date_now ;;
        logger LvDebug
          [Plain ("waiting for process " +:+ Js.number_toString pid +:+ " to exit (timeout: " +:+ Js.number_toString timeoutMs +:+ "ms)")] ;;;
        Date_now) w).

(** The world in which [resolveCommand] asks for the user's shell: the
    lookup of [cmdName] has failed and the fact has been logged. *)
Definition after_lookup (cmdName : string) (w : World) : World :=
  record_log LvDebug
    [Plain ("Command '" +:+ cmdName +:+ "' not found in PATH, will use shell")]
    (snd (found_in_path (whichCommand_of (platform w)) cmdName w)).

(** ** Sample worlds *)

Definition ESRCH : JsError := mkError "kill ESRCH" (Some "ESRCH").
Definition EPERM : JsError := mkError "kill EPERM" (Some "EPERM").
Definition ENOENT : JsError := mkError "ENOENT: no such file or directory" (Some "ENOENT").

(** A bare machine: no [/proc/version], every child exits with status 1, no
    process to signal, the clock standing at [1000]. *)
Definition bare : Env :=
  mkEnv (fun _ => false) (fun _ => Throw ENOENT)
    (fun _ _ => Val (mkSpawn (Some 1) (Some EmptyString)))
    (fun _ _ => Some ESRCH) (Val None) 1000.

Definition bare_linux : World :=
  mkWorld "linux" ∅ (fun _ => bare) None [] [].

(** A Linux machine whose [/proc/version] reads [version]. *)
Definition with_version (version : string) : World :=
  mkWorld "linux" ∅
    (fun _ => mkEnv (fun _ => true) (fun _ => Val version) (spawn bare) (kill bare)
                (user_shell bare) (now bare))
    None [] [].

Definition wsl2_version : string :=
  "Linux version 5.15.90.1-microsoft-standard-WSL2 (root@1234) (gcc 11.2.0)".

Definition wsl1_version : string :=
  "Linux version 4.4.0-19041-Microsoft (Microsoft@Microsoft.com) (gcc version 5.4.0)".

(** A Linux machine on which [which] finds everything under [/usr/bin]. *)
Definition everything_on_path : World :=
  mkWorld "linux" ∅
    (fun _ => mkEnv (fs_exists bare) (fs_read bare)
                (fun cmd argv =>
                   if String.eqb cmd "which"
                   then Val (mkSpawn (Some 0) (Some ("/usr/bin/" +:+ Js.join " " argv)))
                   else spawn bare cmd argv)
                (kill bare) (user_shell bare) (now bare))
    None [] [].

(** A Windows machine on which [tasklist] prints [listing]. *)
Definition windows_listing (listing : string) : World :=
  mkWorld "win32" ∅
    (fun _ => mkEnv (fs_exists bare) (fs_read bare)
                (fun cmd _ =>
                   if String.eqb cmd "tasklist"
                   then Val (mkSpawn (Some 0) (Some listing))
                   else Val (mkSpawn (Some 1) None))
                (kill bare) (user_shell bare) (now bare))
    None [] [].

(** A Windows machine on which only [shell] can be spawned. *)
Definition windows_with_shell (shell : string) : World :=
  mkWorld "win32" ∅
    (fun _ => mkEnv (fs_exists bare) (fs_read bare)
                (fun cmd argv =>
                   if String.eqb cmd shell
                   then Val (mkSpawn (Some 0) (Some "test"))
                   else spawn bare cmd argv)
                (kill bare) (user_shell bare) (now bare))
    None [] [].

Definition one_process_212 : list (list string) :=
  [["node.exe"; "212"; "Console"; "1"; "45,000 K"]].

(** A Linux machine on which signalling [pid] is refused for lack of
    permission. *)
Definition foreign_process (pid : Z) : World :=
  mkWorld "linux" ∅
    (fun _ => mkEnv (fs_exists bare) (fs_read bare) (spawn bare)
                (fun p _ => if (p =? pid)%Z then Some EPERM else Some ESRCH)
                (user_shell bare) (now bare))
    None [] [].

(** ** The launcher

    The parts of [web/src/server/wsl2-launcher.ts] (class [WSL2Launcher])
    that call into [ProcessUtils]. *)

Module WSL2Launcher.

(** The [while] loop of the launcher's own [waitForProcessExit]; [None] is
    "still looping when the fuel ran out". *)
Fixpoint wait_loop (fuel : nat) (pid timeoutMs startTime : Z) : M (option bool) :=
  match fuel with
  | O => ret None
  | S fuel' =>
      t <- Date_now ;;
      if (t - startTime <? timeoutMs)%Z then
        running <- isProcessRunning pid ;;
        if negb running then ret (Some true)
        else
          sleep checkInterval ;;;
          wait_loop fuel' pid timeoutMs startTime
      else ret (Some false)
  end.

Definition waitForProcessExit (fuel : nat) (pid timeoutMs : Z) : M (option bool) :=
  startTime <- Date_now ;;
  wait_loop fuel pid timeoutMs startTime.

(** *** The launcher's own effects

    Besides what [ProcessUtils] does, the launcher writes to the console
    and to its logger, removes files, and ends the process with
    [process.exit]. *)

Inductive Outcome (A : Type) : Type :=
| Returned (a : A)
| Raised (e : JsError)
| Exited (code : Z).
Arguments Returned {A} a.
Arguments Raised {A} e.
Arguments Exited {A} code.

Inductive Level : Type := LDebug | LWarn | LError.

(** What the launcher has put out: a line on the console, a line through
    its logger, or the help text. *)
Inductive Said : Type :=
| ToConsole (line : list LogArg)
| ToLogger (l : Level) (line : list LogArg)
| HelpText.

(** [unlink_fails n path] is what [fs.unlinkSync path] meets when [n]
    interactions have taken place; [unlinked] and [said] are kept newest
    first. *)
Record State : Type := mkState {
  core : World;
  unlink_fails : nat -> string -> option JsError;
  unlinked : list string;
  said : list Said
}.

Definition L (A : Type) : Type := State -> Outcome A * State.

Definition lret {A} (a : A) : L A := fun s => (Returned a, s).

Definition lbind {A B} (m : L A) (k : A -> L B) : L B :=
  fun s =>
    match m s with
    | (Returned a, s') => k a s'
    | (Raised e, s') => (Raised e, s')
    | (Exited code, s') => (Exited code, s')
    end.

(** [try { body } catch (error) { handler }]: leaving the process is not
    an exception. *)
Definition ltry {A} (body : L A) (handler : JsError -> L A) : L A :=
  fun s =>
    match body s with
    | (Raised e, s') => handler e s'
    | r => r
    end.

(** [process.exit(code)] *)
Definition exit {A} (code : Z) : L A := fun s => (Exited code, s).

Definition say (what : Said) : L unit :=
  fun s => (Returned tt, mkState (core s) (unlink_fails s) (unlinked s) (what :: said s)).

(** A computation of [ProcessUtils] or of Node, run by the launcher. *)
Definition call {A} (m : M A) : L A :=
  fun s =>
    match m (core s) with
    | (Val a, w) => (Returned a, mkState w (unlink_fails s) (unlinked s) (said s))
    | (Throw e, w) => (Raised e, mkState w (unlink_fails s) (unlinked s) (said s))
    end.

(** [fs.unlinkSync(path)] *)
Definition unlinkSync (path : string) : L unit :=
  fun s =>
    match unlink_fails s (length (trace (core s))) path with
    | None => (Returned tt, mkState (core s) (unlink_fails s) (path :: unlinked s) (said s))
    | Some e => (Raised e, s)
    end.

Notation "x <~ m ;; k" := (lbind m (fun x => k))
  (at level 100, m at next level, right associativity) : js_scope.
Notation "m ;;~ k" := (lbind m (fun _ => k))
  (at level 100, right associativity) : js_scope.

(** *** [parseInt(s, 10)]

    [None] is [NaN].  Leading white space is skipped, one sign is taken, and
    the longest run of decimal digits that follows is the value, as the
    nearest double. *)

Definition digit_value (c : ascii) : Z := Z.of_nat (nat_of_ascii c) - 48.

(** The double nearest to a natural number: 53 significant bits are kept,
    a tie goes to the even significand.  What lies beyond the largest
    double is [Infinity], for which [2 ^ 1024] stands. *)
Definition to_double (v : Z) : Z :=
  let n := Z.log2 v in
  if (n <? 53)%Z then v
  else
    let e := n - 52 in
    let q := Z.shiftr v e in
    let r := Z.land v (Z.ones e) in
    let half := Z.shiftl 1 (e - 1) in
    let q' := if (half <? r)%Z || ((r =? half)%Z && Z.odd q) then q + 1 else q in
    Z.min (Z.shiftl q' e) (2 ^ 1024).

(** The value of the leading digits, continuing from [acc], and whether
    there was any digit. *)
Fixpoint leading_digits (s : string) (acc : Z) (seen : bool) : Z * bool :=
  match s with
  | String c s' =>
      if is_digit c then leading_digits s' (10 * acc + digit_value c) true
      else (acc, seen)
  | EmptyString => (acc, seen)
  end.

Definition parse_unsigned (s : string) : option Z :=
  let (v, seen) := leading_digits s 0 false in
  if seen then Some (to_double v) else None.

Definition parseInt10 (s : string) : option Z :=
  match Js.trimStart s with
  | String c rest =>
      if Ascii.eqb c "-" then option_map Z.opp (parse_unsigned rest)
      else if Ascii.eqb c "+" then parse_unsigned rest
      else parse_unsigned (String c rest)
  | EmptyString => None
  end.

(** *** Command-line arguments *)

(** [LauncherConfig]; a flag that is absent is [false]. *)
Record LauncherConfig : Type := mkConfig {
  cfg_port : option Z;
  cfg_bind : option string;
  cfg_username : option string;
  cfg_password : option string;
  cfg_noAuth : bool;
  cfg_background : bool;
  cfg_stopSignal : bool;
  cfg_status : bool
}.

Definition empty_config : LauncherConfig :=
  mkConfig None None None None false false false false.

Definition set_port (p : Z) (c : LauncherConfig) : LauncherConfig :=
  mkConfig (Some p) (cfg_bind c) (cfg_username c) (cfg_password c) (cfg_noAuth c)
    (cfg_background c) (cfg_stopSignal c) (cfg_status c).

Definition set_bind (v : string) (c : LauncherConfig) : LauncherConfig :=
  mkConfig (cfg_port c) (Some v) (cfg_username c) (cfg_password c) (cfg_noAuth c)
    (cfg_background c) (cfg_stopSignal c) (cfg_status c).

Definition set_username (v : string) (c : LauncherConfig) : LauncherConfig :=
  mkConfig (cfg_port c) (cfg_bind c) (Some v) (cfg_password c) (cfg_noAuth c)
    (cfg_background c) (cfg_stopSignal c) (cfg_status c).

Definition set_password (v : string) (c : LauncherConfig) : LauncherConfig :=
  mkConfig (cfg_port c) (cfg_bind c) (cfg_username c) (Some v) (cfg_noAuth c)
    (cfg_background c) (cfg_stopSignal c) (cfg_status c).

Definition set_noAuth (c : LauncherConfig) : LauncherConfig :=
  mkConfig (cfg_port c) (cfg_bind c) (cfg_username c) (cfg_password c) true
    (cfg_background c) (cfg_stopSignal c) (cfg_status c).

Definition set_background (c : LauncherConfig) : LauncherConfig :=
  mkConfig (cfg_port c) (cfg_bind c) (cfg_username c) (cfg_password c) (cfg_noAuth c)
    true (cfg_stopSignal c) (cfg_status c).

Definition set_stopSignal (c : LauncherConfig) : LauncherConfig :=
  mkConfig (cfg_port c) (cfg_bind c) (cfg_username c) (cfg_password c) (cfg_noAuth c)
    (cfg_background c) true (cfg_status c).

Definition set_status (c : LauncherConfig) : LauncherConfig :=
  mkConfig (cfg_port c) (cfg_bind c) (cfg_username c) (cfg_password c) (cfg_noAuth c)
    (cfg_background c) (cfg_stopSignal c) true.

(** [logger.error(message); process.exit(1)] *)
Definition die {A} (message : string) : L A :=
  say (ToLogger LError [Plain message]) ;;~ exit 1.

(** The [for] loop of [parseArgs]: [args] is what is left from index [i]
    on. *)
Fixpoint parse_loop (args : list string) (config : LauncherConfig) : L LauncherConfig :=
  match args with
  | [] => lret config
  | arg :: rest =>
      if String.eqb arg "--port" then
        match rest with
        | [] => die "--port requires a value"
        | value :: rest' =>
            match parseInt10 value with
            | Some port =>
                if (port <? 1)%Z || (port >? 65535)%Z
                then die "Port must be a number between 1 and 65535"
                else parse_loop rest' (set_port port config)
            | None => die "Port must be a number between 1 and 65535"
            end
        end
      else if String.eqb arg "--bind" then
        match rest with
        | [] => die "--bind requires a value"
        | value :: rest' => parse_loop rest' (set_bind value config)
        end
      else if String.eqb arg "--username" then
        match rest with
        | [] => die "--username requires a value"
        | value :: rest' => parse_loop rest' (set_username value config)
        end
      else if String.eqb arg "--password" then
        match rest with
        | [] => die "--password requires a value"
        | value :: rest' => parse_loop rest' (set_password value config)
        end
      else if String.eqb arg "--no-auth" then parse_loop rest (set_noAuth config)
      else if String.eqb arg "--background" || String.eqb arg "-d" then
        parse_loop rest (set_background config)
      else if String.eqb arg "--stop" then parse_loop rest (set_stopSignal config)
      else if String.eqb arg "--status" then parse_loop rest (set_status config)
      else if String.eqb arg "--help" || String.eqb arg "-h" then
        say HelpText ;;~ exit 0
      else if String.prefix "--" arg then
        say (ToLogger LError [Plain ("Unknown option: " +:+ arg)]) ;;~
        say HelpText ;;~
        exit 1
      else parse_loop rest config
  end.

(** [argv] is [process.argv]. *)
Definition parseArgs (argv : list string) : L LauncherConfig :=
  let args := skipn 2 argv in
  config <~ parse_loop args empty_config ;;
  if Js.truthy_opt (cfg_username config) && negb (Js.truthy_opt (cfg_password config)) then
    die "Username specified but no password provided. Use --password or --no-auth"
  else if Js.truthy_opt (cfg_password config) && negb (Js.truthy_opt (cfg_username config)) then
    die "Password specified but no username provided. Use --username"
  else lret config.

(** *** The PID file *)

(** [{ running: boolean; pid?: number }] *)
Record ServerStatus : Type := mkStatus {
  running : bool;
  status_pid : option Z
}.

(** [ProcessUtils.isProcessRunning] on what [parseInt] returned: [NaN] is
    falsy, so the guard [!pid] answers [false] at once. *)
Definition isProcessRunning_number (pid : option Z) : M bool :=
  match pid with
  | Some p => isProcessRunning p
  | None => ret false
  end.

(** [pidFile] is [this.pidFile]. *)
Definition isServerRunning (pidFile : string) : L ServerStatus :=
  present <~ call (existsSync pidFile) ;;
  if negb present then lret (mkStatus false None)
  else
    ltry
      (content <~ call (readFileSync pidFile) ;;
       let pidStr := Js.trim content in
       let pid := parseInt10 pidStr in
       alive <~ call (isProcessRunning_number pid) ;;
       if alive then lret (mkStatus true pid)
       else
         unlinkSync pidFile ;;~
         lret (mkStatus false None))
      (fun error =>
         say (ToLogger LDebug [Plain "Error checking server status:"; Caught error]) ;;~
         lret (mkStatus false None)).

(** *** Stopping the server *)

Definition SIGKILL : Signal := SigName "SIGKILL".

(** [`${status.pid}`] *)
Definition pid_text (pid : option Z) : string :=
  match pid with
  | Some p => Js.number_toString p
  | None => "undefined"
  end.

(** The inner [try] of [stopServer]: the forced kill and the second wait.
    [None] is "the wait ran out of fuel". *)
Definition force_kill (fuel : nat) (pid : Z) : L (option unit) :=
  ltry
    (call (process_kill pid SIGKILL) ;;~
     forced <~ call (waitForProcessExit fuel pid 2000) ;;
     lret (option_map (fun _ => tt) forced))
    (fun killError =>
       say (ToLogger LWarn [Plain "Error during force kill:"; Caught killError]) ;;~
       lret (Some tt)).

(** The [if (status.pid)] block of [stopServer]. *)
Definition terminate (fuel : nat) (pid : option Z) : L (option unit) :=
  match pid with
  | Some p =>
      if (p =? 0)%Z then lret (Some tt)
      else
        call (process_kill p SIGTERM) ;;~
        gracefulShutdown <~ call (waitForProcessExit fuel p 5000) ;;
        match gracefulShutdown with
        | None => lret None
        | Some graceful =>
            if negb graceful then
              say (ToConsole [Styled Red "Server did not stop gracefully, forcing termination..."]) ;;~
              force_kill fuel p
            else lret (Some tt)
        end
  | None => lret (Some tt)
  end.

(** [None] is "a wait ran out of fuel". *)
Definition stopServer (fuel : nat) (pidFile : string) : L (option unit) :=
  status <~ isServerRunning pidFile ;;
  if negb (running status) then
    say (ToConsole [Styled Yellow "Server is not running"]) ;;~
    lret (Some tt)
  else
    ltry
      (say (ToConsole [Styled Yellow ("Stopping server (PID: " +:+ pid_text (status_pid status) +:+ ")...")]) ;;~
       waited <~ terminate fuel (status_pid status) ;;
       match waited with
       | None => lret None
       | Some _ =>
           present <~ call (existsSync pidFile) ;;
           (if present then unlinkSync pidFile else lret tt) ;;~
           say (ToConsole [Styled Green "✓ Server stopped"]) ;;~
           lret (Some tt)
       end)
      (fun error =>
         say (ToLogger LError [Plain "Error stopping server:"; Caught error]) ;;~
         exit 1).

End WSL2Launcher.

(** ** Vocabulary of further properties *)

(** The interactions platform detection may have: the existence check and
    the read of [/proc/version], and reads of the three WSL variables. *)
Definition is_wsl_probe (e : Event) : bool :=
  match e with
  | EvExists p => String.eqb p "/proc/version"
  | EvReadFile p => String.eqb p "/proc/version"
  | EvEnv name => existsb (String.eqb name) wslEnvVars
  | _ => false
  end.

Definition is_file_read (e : Event) : bool :=
  match e with
  | EvReadFile _ => true
  | _ => false
  end.

(** Some WSL variable is set to a non-empty value. *)
Definition wsl_env_set (vars : gmap string string) : bool :=
  existsb (fun envVar => Js.truthy_opt (vars !! envVar)) wslEnvVars.

Definition unconfirmed_warnings : list (LogLevel * list LogArg) :=
  [(LvWarn, [Styled Red "Unable to confirm WSL2 - this may be WSL1 which is not supported"]);
   (LvLog, [Styled Yellow "WSL environment detected via environment variables"])].

(** [tasklist] gave nothing to search: it threw, exited with a status other
    than zero (or none, on a timeout), or printed nothing. *)
Definition tasklist_failed (answer : Result SpawnResult) : bool :=
  match answer with
  | Val result =>
      negb (status_is_zero (status result)) || negb (Js.truthy_opt (stdout result))
  | Throw _ => true
  end.

(** A child process ran and exited with status zero. *)
Definition exited_zero (answer : Result SpawnResult) : bool :=
  match answer with
  | Val result => status_is_zero (status result)
  | Throw _ => false
  end.

(** [process.kill] returned instead of throwing. *)
Definition delivered (outcome : option JsError) : bool :=
  match outcome with
  | None => true
  | Some _ => false
  end.

Definition taskkill_args (pid : Z) : list string :=
  ["/PID"; Js.number_toString pid; "/F"].

(** A Linux machine on which process [pid] is the caller's own and stays
    alive, and on which forty milliseconds pass between one interaction and
    the next. *)
Definition ticking (pid : Z) : World :=
  mkWorld "linux" ∅
    (fun n => mkEnv (fs_exists bare) (fs_read bare) (spawn bare)
                (fun p _ => if (p =? pid)%Z then None else Some ESRCH)
                (user_shell bare) (1000 + 40 * Z.of_nat n))
    None [] [].

(** A command name that is a known shell, bare or at the end of a path. *)
Definition is_shell_name (cmdName : string) : Prop :=
  exists shell, In shell shells /\
    (cmdName = shell \/ exists dir, cmdName = dir +:+ "/" +:+ shell).

(** An argument vector that asks for an interactive session: empty, or
    holding one of the interactive or login flags. *)
Definition asks_interactive (args : list string) : Prop :=
  args = [] \/ exists arg, In arg args /\ In arg interactiveFlags.

(** Whatever a computation returns satisfies [P]. *)
Definition returns {A} (P : A -> Prop) (m : M A) : Prop :=
  forall w a, fst (m w) = Val a -> P a.

(** A computation preserves a property of the world. *)
Definition keeps {A} (I : World -> Prop) (m : M A) : Prop :=
  forall w, I w -> I (snd (m w)).

(** The flag sequences [resolveCommand] puts before the command line. *)
Definition shell_flags : list (list string) :=
  [["-c"]; ["-i"; "-c"]; ["-NoLogo"; "-Command"]; ["/C"]].

(** The preference list of [getUserShell] on a Unix-like platform. *)
Definition commonShells_for (platformType : string) : list string :=
  if String.eqb platformType "wsl2"
  then ["/bin/bash"; "/bin/zsh"; "/usr/bin/bash"; "/usr/bin/zsh"; "/bin/sh"]
  else ["/bin/zsh"; "/bin/bash"; "/usr/bin/zsh"; "/usr/bin/bash"; "/bin/sh"].

(** [test -x shell] exits with status zero. *)
Definition executable (env : Env) (shell : string) : bool :=
  exited_zero (spawn env "test" ["-x"; shell]).

(** The shell [os.userInfo()] reports, if it reports one. *)
Definition shell_from_userInfo (r : Result (option string)) : option string :=
  match r with
  | Val (Some sh) => if Js.truthy sh then Some sh else None
  | _ => None
  end.

(** Not Linux, and not marked as WSL2. *)
Definition sober (w : World) : Prop :=
  platform w <> "linux" /\ _isWSL2 w <> Some true.

(** The plan [resolveCommand] builds once the lookup has failed, from the
    platform type and the user's shell. *)
Definition shell_plan (platformType userShell cmdName : string) (cmdArgs : list string)
  : SpawnPlan :=
  let cmd := cmdName :: cmdArgs in
  let isCommand := negb (isInteractiveShellCommand cmdName cmdArgs) in
  if String.eqb platformType "win32" then
    if Js.includes userShell "bash" then
      if isCommand then mkPlan userShell ["-c"; Js.join " " cmd] true
      else mkPlan userShell ["-i"; "-c"; Js.join " " cmd] true
    else if Js.includes userShell "pwsh" || Js.includes userShell "powershell" then
      mkPlan userShell ["-NoLogo"; "-Command"; Js.join " " cmd] true
    else
      mkPlan userShell ["/C"; Js.join " " cmd] true
  else if is_unix_like platformType then
    if isCommand then mkPlan userShell ["-c"; Js.join " " cmd] true
    else mkPlan userShell ["-i"; "-c"; Js.join " " cmd] true
  else
    mkPlan cmdName cmdArgs false.

(** A machine of an unrecognised kind. *)
Definition bare_freebsd : World :=
  mkWorld "freebsd" ∅ (fun _ => bare) None [] [].

(** A Linux machine, known not to be WSL2, where [zsh] and [bash] are both
    installed under [/bin] and the user database names no shell. *)
Definition zsh_and_bash : Env :=
  mkEnv (fs_exists bare) (fs_read bare)
    (fun cmd argv =>
       if String.eqb cmd "test" &&
          (existsb (String.eqb "/bin/zsh") argv || existsb (String.eqb "/bin/bash") argv)
       then Val (mkSpawn (Some 0) (Some EmptyString))
       else spawn bare cmd argv)
    (kill bare) (user_shell bare) (now bare).

Definition linux_with_zsh_and_bash (wsl2 : bool) : World :=
  mkWorld "linux" ∅ (fun _ => zsh_and_bash) (Some wsl2) [] [].

(** The verdict "the process was seen gone". *)
Definition seen_gone (verdict : Result (option bool)) : bool :=
  match verdict with
  | Val (Some true) => true
  | _ => false
  end.

(** Two worlds that differ at most in what has been logged. *)
Definition same_but_log (w1 w2 : World) : Prop :=
  platform w1 = platform w2 /\
  env_vars w1 = env_vars w2 /\
  oracle w1 = oracle w2 /\
  _isWSL2 w1 = _isWSL2 w2 /\
  trace w1 = trace w2.

(** A computation that does not look at the log. *)
Definition log_blind {A} (m : M A) : Prop :=
  forall w1 w2, same_but_log w1 w2 ->
    fst (m w1) = fst (m w2) /\ same_but_log (snd (m w1)) (snd (m w2)).


(** ** Sample states of the launcher *)

Definition pidFile : string := "/home/user/.vibetunnel/server.pid".

(** A Linux machine whose PID file reads [content]; process 4242 is the
    only one alive, and it ignores signals. *)
Definition with_pid_file (content : string) : WSL2Launcher.State :=
  WSL2Launcher.mkState
    (mkWorld "linux" ∅
       (fun n => mkEnv (fun _ => true) (fun _ => Val content) (spawn bare)
                   (fun p _ => if (p =? 4242)%Z then None else Some ESRCH)
                   (user_shell bare) (1000 + 1000 * Z.of_nat n))
       (Some false) [] [])
    (fun _ _ => None) [] [].

(** The same machine with a server that obeys: process 4242 is alive up to
    the fourth interaction (the delivery of [SIGTERM]) and gone after it. *)
Definition with_obedient_server : WSL2Launcher.State :=
  WSL2Launcher.mkState
    (mkWorld "linux" ∅
       (fun n => mkEnv (fun _ => true) (fun _ => Val "4242") (spawn bare)
                   (fun p _ => if (p =? 4242)%Z && (n <=? 3)%nat then None else Some ESRCH)
                   (user_shell bare) (1000 + Z.of_nat n))
       (Some false) [] [])
    (fun _ _ => None) [] [].

(** The same machine with a server that belongs to someone else: every
    signal to process 4242, the null signal included, is refused for lack
    of permission. *)
Definition with_foreign_server : WSL2Launcher.State :=
  WSL2Launcher.mkState
    (mkWorld "linux" ∅
       (fun n => mkEnv (fun _ => true) (fun _ => Val "4242") (spawn bare)
                   (fun p _ => if (p =? 4242)%Z then Some EPERM else Some ESRCH)
                   (user_shell bare) (1000 + Z.of_nat n))
       (Some false) [] [])
    (fun _ _ => None) [] [].

Definition without_pid_file : WSL2Launcher.State :=
  WSL2Launcher.mkState bare_linux (fun _ _ => None) [] [].

(** A configuration [parseArgs] lets through: the port, if any, is a valid
    TCP port, and user name and password come together. *)
Definition valid_config (c : WSL2Launcher.LauncherConfig) : Prop :=
  (forall p, WSL2Launcher.cfg_port c = Some p -> 1 <= p <= 65535) /\
  Js.truthy_opt (WSL2Launcher.cfg_username c) = Js.truthy_opt (WSL2Launcher.cfg_password c).

(** The port, if any, is a valid TCP port. *)
Definition port_ok (c : WSL2Launcher.LauncherConfig) : Prop :=
  forall p, WSL2Launcher.cfg_port c = Some p -> 1 <= p <= 65535.

(** How a run of the argument loop may end: with a configuration whose port
    is in range and nothing said, or by leaving with code 0 or 1. *)
Definition loop_ends (P : WSL2Launcher.LauncherConfig -> Prop) (s : WSL2Launcher.State)
    (r : WSL2Launcher.Outcome WSL2Launcher.LauncherConfig * WSL2Launcher.State) : Prop :=
  match fst r with
  | WSL2Launcher.Returned c => P c /\ snd r = s
  | WSL2Launcher.Raised _ => False
  | WSL2Launcher.Exited code => code = 0 \/ code = 1
  end.


(** How [stopServer] ends once the signals are dealt with, [w] being the
    world it has reached and [s1] the state in which the server was found:
    it checks for the PID file and nothing more; it removes the file if it
    is there; it returns normally unless the removal throws, in which case
    it ends the process with code 1. *)
Definition cleaned_up (pidFile : string) (s1 : WSL2Launcher.State) (w : World)
    (r : WSL2Launcher.Outcome (option unit) * WSL2Launcher.State) : Prop :=
  trace (WSL2Launcher.core (snd r)) = EvExists pidFile :: trace w /\
  if fs_exists (cur w) pidFile then
    match WSL2Launcher.unlink_fails s1 (S (length (trace w))) pidFile with
    | None =>
        fst r = WSL2Launcher.Returned (Some tt) /\
        WSL2Launcher.unlinked (snd r) = pidFile :: WSL2Launcher.unlinked s1
    | Some _ =>
        fst r = WSL2Launcher.Exited 1 /\
        WSL2Launcher.unlinked (snd r) = WSL2Launcher.unlinked s1
    end
  else
    fst r = WSL2Launcher.Returned (Some tt) /\
    WSL2Launcher.unlinked (snd r) = WSL2Launcher.unlinked s1.

(** ** Symbolic execution *)

#[local] Arguments String.eqb : simpl never.
#[local] Arguments Js.includes : simpl never.
#[local] Arguments Js.toLowerCase : simpl never.
#[local] Arguments Js.number_toString : simpl never.
#[local] Arguments Js.trim : simpl never.

Ltac unfold_m :=
  unfold try_catch, bind, ret, throw, lift, observe, get_platform, get_isWSL2,
    put_isWSL2, logger, existsSync, readFileSync, process_env, spawnSync,
    process_kill, os_userInfo_shell, Date_now, sleep in *.

(** Case analysis on a scrutinee that is not itself a case analysis. *)
Ltac split_match :=
  match goal with
  | |- context [match ?x with _ => _ end] =>
      lazymatch x with
      | context [match _ with _ => _ end] => fail
      | _ => destruct x eqn:?
      end
  end.

Ltac run := unfold_m; cbn; repeat (split_match; cbn).

(** ** Platform detection *)

Lemma isWSL2_cached w b : _isWSL2 w = Some b -> isWSL2 w = (Val b, w).
Proof. intros H. unfold isWSL2, get_isWSL2, bind. now rewrite H. Qed.

(** Whatever the path taken, detection answers, and leaves its answer in the
    flag. *)
Lemma isWSL2_memoises w :
  exists b, fst (isWSL2 w) = Val b /\ _isWSL2 (snd (isWSL2 w)) = Some b /\
            platform (snd (isWSL2 w)) = platform w.
Proof.
  unfold isWSL2, check_proc_version, wslEnvVars, some_env.
  run; eauto.
Qed.

Lemma getPlatformType_cached w b :
  _isWSL2 w = Some b -> getPlatformType w = (Val (platformType_of b (platform w)), w).
Proof.
  intros H. unfold getPlatformType, bind. rewrite (isWSL2_cached _ _ H).
  now destruct b.
Qed.

Lemma getPlatformType_memoises w :
  exists b, fst (getPlatformType w) = Val (platformType_of b (platform w)) /\
            _isWSL2 (snd (getPlatformType w)) = Some b /\
            platform (snd (getPlatformType w)) = platform w.
Proof.
  destruct (isWSL2_memoises w) as (b & Hv & Hc & Hp).
  exists b. unfold getPlatformType, bind.
  destruct (isWSL2 w) as [r w']. cbn in *. subst r.
  destruct b; cbn; rewrite ?Hp; auto.
Qed.

Lemma later_calls_cached changes : forall w b,
  _isWSL2 w = Some b ->
  Forall (eq (Val (platformType_of b (platform w)))) (fst (later_calls changes w)) /\
  trace (snd (later_calls changes w)) = trace w.
Proof.
  induction changes as [|[vars o] rest IH]; intros w b Hc; cbn.
  - split; [constructor | reflexivity].
  - rewrite (getPlatformType_cached (disturb vars o w) b) by exact Hc.
    destruct (IH (disturb vars o w) b Hc) as [Hall Htr].
    destruct (later_calls rest (disturb vars o w)) as [rs w2]. cbn in *.
    split; [constructor; [reflexivity | exact Hall] | exact Htr].
Qed.

(** C4. Platform detection is idempotent within one process: the first call
    of [getPlatformType] returns a value, every later call returns that same
    value, and the later calls interact with nothing (the trace of
    file-system reads and environment scans stays as the first call left
    it), whatever happens to the environment variables, to [/proc/version]
    and to the rest of the operating system between the calls. *)
Theorem getPlatformType_idempotent (w : World)
    (changes : list (gmap string string * (nat -> Env))) :
  let first := fst (getPlatformType w) in
  let w1 := snd (getPlatformType w) in
  (exists v, first = Val v) /\
  Forall (eq first) (fst (later_calls changes w1)) /\
  trace (snd (later_calls changes w1)) = trace w1.
Proof.
  cbv zeta. destruct (getPlatformType_memoises w) as (b & Hv & Hc & Hp).
  destruct (later_calls_cached changes _ b Hc) as [Hall Htr].
  rewrite Hv. rewrite Hp in Hall. eauto.
Qed.

(** C3. On Linux, on the first detection, with [/proc/version] present when
    its existence is checked and readable right after: if its lower-cased
    text holds a vendor marker and the marker
    "wsl2", [getPlatformType] returns "wsl2" (and the flag records [true]);
    if it holds a vendor marker but not "wsl2", [getPlatformType] returns
    "linux", the flag records [false] and the two WSL1 warnings are
    logged. *)
Theorem kernel_identity_decides (w : World) (content : string) :
  platform w = "linux" ->
  _isWSL2 w = None ->
  fs_exists (cur w) "/proc/version" = true ->
  fs_read (cur (record_event (EvExists "/proc/version") w)) "/proc/version" = Val content ->
  vendor_marker (Js.toLowerCase content) = true ->
  let w' := snd (getPlatformType w) in
  if version_marker (Js.toLowerCase content)
  then fst (getPlatformType w) = Val "wsl2" /\ _isWSL2 w' = Some true
  else fst (getPlatformType w) = Val "linux" /\ _isWSL2 w' = Some false /\
       log w' = wsl1_warnings ++ log w.
Proof.
  intros Hp Hc He Hr Hv. unfold vendor_marker, version_marker in *.
  unfold getPlatformType, isWSL2, check_proc_version. unfold_m.
  rewrite Hc, Hp, String.eqb_refl. cbn. rewrite He. cbn.
  unfold cur in Hr |- *. cbn in Hr |- *. rewrite Hr. cbn. rewrite Hv. cbn.
  destruct (Js.includes (Js.toLowerCase content) "wsl2"); cbn;
    rewrite ?Hp; repeat split; reflexivity.
Qed.

Lemma kernel_identity_decides_witness :
  (fst (getPlatformType (with_version wsl2_version)) = Val "wsl2" /\
   _isWSL2 (snd (getPlatformType (with_version wsl2_version))) = Some true) /\
  (fst (getPlatformType (with_version wsl1_version)) = Val "linux" /\
   _isWSL2 (snd (getPlatformType (with_version wsl1_version))) = Some false /\
   log (snd (getPlatformType (with_version wsl1_version))) = wsl1_warnings ++ []).
Proof.
  split.
  - apply (kernel_identity_decides (with_version wsl2_version) wsl2_version);
      reflexivity.
  - apply (kernel_identity_decides (with_version wsl1_version) wsl1_version);
      reflexivity.
Defined.

(** ** Liveness and termination of processes *)

Lemma bad_pid_nonpositive pid : pid <= 0 -> bad_pid pid = true.
Proof. unfold bad_pid. intros H. apply orb_true_iff. right. lia. Qed.

Lemma bad_pid_positive pid : 0 < pid -> bad_pid pid = false.
Proof. unfold bad_pid. intros H. apply orb_false_iff. split; lia. Qed.

(** The outer [try]/[catch] of [isProcessRunning] turns every exception of
    the probes into [false]. *)
Lemma isProcessRunning_total : forall pid, total (isProcessRunning pid).
Proof.
  intros pid w. unfold isProcessRunning.
  destruct (bad_pid pid); [now exists false |].
  unfold try_catch.
  match goal with |- context [match ?body w with _ => _ end] =>
    destruct (body w) as [[b | e] w']
  end; cbn; eauto.
Qed.

(** C5. For every [pid <= 0], [isProcessRunning] returns [false] and leaves
    the world as it found it: nothing is spawned and no signal is delivered.
    For every integer [pid] it returns a boolean and never throws. *)
Theorem isProcessRunning_safe (pid : Z) (w : World) :
  (pid <= 0 -> isProcessRunning pid w = (Val false, w)) /\
  (exists b, fst (isProcessRunning pid w) = Val b).
Proof.
  split.
  - intros H. unfold isProcessRunning. now rewrite (bad_pid_nonpositive _ H).
  - apply isProcessRunning_total.
Qed.

Lemma isProcessRunning_safe_witness :
  isProcessRunning (-7) bare_linux = (Val false, bare_linux).
Proof.
  apply (proj1 (isProcessRunning_safe (-7) bare_linux)). lia.
Defined.

Lemma not_win32 p b : p <> "win32" -> String.eqb (platformType_of b p) "win32" = false.
Proof.
  intros H. destruct b; cbn; [reflexivity |].
  now apply String.eqb_neq.
Qed.

(** Off Windows, a positive pid is probed with the null signal, and the
    answer is the reading of that probe's outcome. *)
Lemma isProcessRunning_unix pid w :
  0 < pid -> platform w <> "win32" ->
  fst (isProcessRunning pid w) =
    Val (signal_verdict (kill (cur (at_signal w)) pid (SigNum 0))).
Proof.
  intros Hpid Hp. unfold isProcessRunning, at_signal.
  rewrite (bad_pid_positive _ Hpid).
  destruct (getPlatformType_memoises w) as (b & Hv & _ & _).
  unfold try_catch at 1. unfold bind at 1.
  destruct (getPlatformType w) as [r w1]. cbn in Hv |- *. subst r.
  rewrite (not_win32 _ b Hp).
  unfold isProcessRunningUnix, signal_verdict. unfold_m. cbn.
  destruct (kill (cur w1) pid (SigNum 0)) as [err |]; cbn; [| reflexivity].
  now destruct (code_is err "EPERM").
Qed.

(** C6. On a Unix-like platform, for every [pid > 0], [isProcessRunning]
    returns [true] when the delivery of the null signal succeeds, [true]
    when it fails with the code EPERM, and [false] when it fails with any
    other code (ESRCH among them) or with none. *)
Theorem isProcessRunning_reads_null_signal (pid : Z) (w : World) :
  0 < pid -> platform w <> "win32" ->
  let outcome := kill (cur (at_signal w)) pid (SigNum 0) in
  (outcome = None -> fst (isProcessRunning pid w) = Val true) /\
  (forall err, outcome = Some err -> err_code err = Some "EPERM" ->
               fst (isProcessRunning pid w) = Val true) /\
  (forall err, outcome = Some err -> err_code err <> Some "EPERM" ->
               fst (isProcessRunning pid w) = Val false).
Proof.
  intros Hpid Hp. cbv zeta. rewrite (isProcessRunning_unix _ _ Hpid Hp).
  repeat split.
  - now intros ->.
  - intros err -> Hc. cbn. unfold code_is. now rewrite Hc.
  - intros err -> Hc. cbn. unfold code_is.
    destruct (err_code err) as [c |]; [| reflexivity].
    destruct (String.eqb_spec c "EPERM"); [subst; contradiction | reflexivity].
Qed.

Lemma isProcessRunning_reads_null_signal_witness :
  fst (isProcessRunning 4242 (foreign_process 4242)) = Val true /\
  fst (isProcessRunning 4243 (foreign_process 4242)) = Val false.
Proof.
  split.
  - apply (proj1 (proj2 (isProcessRunning_reads_null_signal 4242 (foreign_process 4242)
                           ltac:(lia) ltac:(discriminate))) EPERM);
      reflexivity.
  - apply (proj2 (proj2 (isProcessRunning_reads_null_signal 4243 (foreign_process 4242)
                           ltac:(lia) ltac:(discriminate))) ESRCH);
      [reflexivity | discriminate].
Defined.

(** C9. [getProcessInfo] returns [null] exactly when its call of
    [isProcessRunning] answers [false]; otherwise it returns the record
    [{ pid, exists: true }] with the queried pid. *)
Theorem getProcessInfo_follows_liveness (pid : Z) (w : World) :
  exists running,
    fst (isProcessRunning pid w) = Val running /\
    fst (getProcessInfo pid w) =
      Val (if running then Some (mkProcessInfo pid true) else None) /\
    (fst (getProcessInfo pid w) = Val None <-> running = false).
Proof.
  destruct (isProcessRunning_total pid w) as [running Hr].
  exists running. unfold getProcessInfo, bind.
  destruct (isProcessRunning pid w) as [r w']. cbn in Hr. subst r.
  destruct running; cbn; repeat split; auto; discriminate.
Qed.

(** C10. For every [pid <= 0] and every signal, [killProcess] returns
    [false] and leaves the world as it found it: no signal is delivered and
    [taskkill] is not spawned. *)
Theorem killProcess_nonpositive (pid : Z) (signal : Signal) (w : World) :
  pid <= 0 -> killProcess pid signal w = (Val false, w).
Proof.
  intros H. unfold killProcess. now rewrite (bad_pid_nonpositive _ H).
Qed.

Lemma killProcess_nonpositive_witness :
  killProcess 0 SIGTERM bare_linux = (Val false, bare_linux).
Proof.
  apply (killProcess_nonpositive 0 SIGTERM bare_linux). lia.
Defined.

(** ** How computations move the world *)

Lemma evolves_refl w : evolves w w.
Proof.
  unfold evolves. repeat split. exists []. split; [reflexivity | constructor].
Qed.

Lemma evolves_trans w1 w2 w3 : evolves w1 w2 -> evolves w2 w3 -> evolves w1 w3.
Proof.
  intros (Hp & He & Ho & evs & Ht & Hs) (Hp' & He' & Ho' & evs' & Ht' & Hs').
  unfold evolves. repeat split; try congruence.
  exists (evs' ++ evs). split.
  - rewrite Ht', Ht. apply app_assoc.
  - apply Forall_app. now split.
Qed.

Lemma evolves_event e w : is_sleep e = false -> evolves w (record_event e w).
Proof.
  intros H. unfold evolves. repeat split. exists [e].
  split; [reflexivity | now constructor].
Qed.

Lemma evolves_log l a w : evolves w (record_log l a w).
Proof. unfold evolves. repeat split. exists []. now split. Qed.

Lemma evolves_flag b w : evolves w (set_isWSL2 b w).
Proof. unfold evolves. repeat split. exists []. now split. Qed.

Section Combinators.
Context {A B : Type}.

Lemma runs_ret (a : A) : runs (ret a).
Proof. intros w. apply evolves_refl. Qed.

Lemma runs_throw (e : JsError) : runs (@throw A e).
Proof. intros w. apply evolves_refl. Qed.

Lemma runs_lift (r : Result A) : runs (lift r).
Proof. intros w. apply evolves_refl. Qed.

Lemma runs_bind (m : M A) (k : A -> M B) :
  runs m -> (forall a, runs (k a)) -> runs (bind m k).
Proof.
  intros Hm Hk w. unfold bind. specialize (Hm w).
  destruct (m w) as [[a | e] w1]; cbn in *; [| exact Hm].
  eapply evolves_trans; [exact Hm | apply Hk].
Qed.

Lemma runs_try_catch (body : M A) (handler : JsError -> M A) :
  runs body -> (forall e, runs (handler e)) -> runs (try_catch body handler).
Proof.
  intros Hb Hh w. unfold try_catch. specialize (Hb w).
  destruct (body w) as [[a | e] w1]; cbn in *; [exact Hb |].
  eapply evolves_trans; [exact Hb | apply Hh].
Qed.

Lemma total_ret (a : A) : total (ret a).
Proof. intros w. now exists a. Qed.

Lemma total_bind (m : M A) (k : A -> M B) :
  total m -> (forall a, total (k a)) -> total (bind m k).
Proof.
  intros Hm Hk w. unfold bind. destruct (Hm w) as [a Ha].
  destruct (m w) as [r w1]. cbn in Ha. subst r. apply Hk.
Qed.

(** A handler that never throws makes the whole [try] statement safe. *)
Lemma total_try_catch (body : M A) (handler : JsError -> M A) :
  (forall e, total (handler e)) -> total (try_catch body handler).
Proof.
  intros Hh w. unfold try_catch.
  destruct (body w) as [[a | e] w1]; [now exists a | apply Hh].
Qed.
End Combinators.

Lemma runs_observe e : is_sleep e = false -> runs (observe e).
Proof. intros H w. now apply evolves_event. Qed.

Lemma runs_logger l a : runs (logger l a).
Proof. intros w. apply evolves_log. Qed.

Lemma runs_put_isWSL2 b : runs (put_isWSL2 b).
Proof. intros w. apply evolves_flag. Qed.

Lemma runs_get_platform : runs get_platform.
Proof. intros w. apply evolves_refl. Qed.

Lemma runs_get_isWSL2 : runs get_isWSL2.
Proof. intros w. apply evolves_refl. Qed.

Lemma runs_process_env name : runs (process_env name).
Proof. intros w. now apply evolves_event. Qed.

Lemma total_logger l a : total (logger l a).
Proof. intros w. now exists tt. Qed.

Lemma total_get_platform : total get_platform.
Proof. intros w. now exists (platform w). Qed.

Lemma total_process_env name : total (process_env name).
Proof. intros w. now eexists. Qed.

Create HintDb js.
#[local] Hint Resolve runs_ret runs_throw runs_lift runs_logger runs_put_isWSL2
  runs_get_platform runs_get_isWSL2 runs_process_env : js.
#[local] Hint Extern 1 (runs (observe _)) => (apply runs_observe; reflexivity) : js.

#[local] Hint Resolve total_ret total_logger total_get_platform total_process_env : js.

(** Follow the shape of the program: sequencing, [try], branches. *)
Ltac walk :=
  repeat first
    [ progress intros
    | solve [auto with js]
    | apply runs_bind
    | apply runs_try_catch
    | apply total_bind
    | apply total_try_catch
    | match goal with
      | |- ?P (if ?c then _ else _) => destruct c
      | |- ?P (match ?x with _ => _ end) => destruct x
      end ].

Lemma runs_existsSync p : runs (existsSync p).
Proof. unfold existsSync. walk. Qed.

Lemma runs_readFileSync p : runs (readFileSync p).
Proof. unfold readFileSync. walk. Qed.

Lemma runs_spawnSync c a : runs (spawnSync c a).
Proof. unfold spawnSync. walk. Qed.

Lemma runs_process_kill pid sig : runs (process_kill pid sig).
Proof. unfold process_kill. walk. Qed.

Lemma runs_os_userInfo_shell : runs os_userInfo_shell.
Proof. unfold os_userInfo_shell. walk. Qed.

Lemma runs_Date_now : runs Date_now.
Proof. unfold Date_now. walk. Qed.

#[local] Hint Resolve runs_existsSync runs_readFileSync runs_spawnSync
  runs_process_kill runs_os_userInfo_shell runs_Date_now : js.

Lemma runs_some_env names : runs (some_env names).
Proof. induction names as [| n rest IH]; cbn; walk. Qed.

#[local] Hint Resolve runs_some_env : js.

Lemma runs_isWSL2 : runs isWSL2.
Proof. unfold isWSL2, check_proc_version. walk. Qed.

#[local] Hint Resolve runs_isWSL2 : js.

Lemma runs_getPlatformType : runs getPlatformType.
Proof. unfold getPlatformType. walk. Qed.

#[local] Hint Resolve runs_getPlatformType : js.

Lemma runs_isProcessRunning pid : runs (isProcessRunning pid).
Proof.
  unfold isProcessRunning, isProcessRunningWindows, isProcessRunningUnix.
  walk.
Qed.

Lemma total_getPlatformType : total getPlatformType.
Proof.
  intros w. destruct (getPlatformType_memoises w) as (b & Hv & _). eauto.
Qed.

#[local] Hint Resolve total_getPlatformType : js.

(** ** Waiting for a process to exit *)

Lemma at_first_poll_evolves pid timeoutMs w : evolves w (at_first_poll pid timeoutMs w).
Proof.
  unfold at_first_poll.
  assert (H : runs (startTime <- Date_now ;;
                    logger LvDebug
                      [Plain ("waiting for process " +:+ Js.number_toString pid +:+ " to exit (timeout: " +:+ Js.number_toString timeoutMs +:+ "ms)")] ;;;
                    Date_now)) by walk.
  apply H.
Qed.

(** The first turn of the loop, for any timeout.  The deadline is tested
    before the process is polled: when the time between the first two
    readings of the clock has reached [timeoutMs], the answer is [false]
    and nothing but the two readings has taken place; when it has not and
    the poll finds the process gone, the answer is [true] and nothing was
    slept through. *)
Lemma waitForProcessExit_first_turn (fuel : nat) (pid timeoutMs : Z) (w : World) :
  let n := length (trace w) in
  let elapsed := now (oracle w (S n)) - now (oracle w n) in
  (timeoutMs <= elapsed ->
   fst (waitForProcessExit (S fuel) pid timeoutMs w) = Val (Some false) /\
   trace (snd (waitForProcessExit (S fuel) pid timeoutMs w)) = EvNow :: EvNow :: trace w) /\
  (elapsed < timeoutMs ->
   fst (isProcessRunning pid (at_first_poll pid timeoutMs w)) = Val false ->
   fst (waitForProcessExit (S fuel) pid timeoutMs w) = Val (Some true) /\
   evolves w (snd (waitForProcessExit (S fuel) pid timeoutMs w))).
Proof.
  cbv zeta. split.
  - intros Hclock. unfold waitForProcessExit, wait_loop. unfold_m. cbn.
    unfold cur. cbn.
    destruct (Z.ltb_spec (now (oracle w (S (length (trace w)))) - now (oracle w (length (trace w)))) timeoutMs);
      [lia | now cbn].
  - intros Hclock Hdead.
    pose proof (at_first_poll_evolves pid timeoutMs w) as Hw.
    pose proof (runs_isProcessRunning pid (at_first_poll pid timeoutMs w)) as Hrun.
    revert Hdead Hw Hrun.
    unfold waitForProcessExit, wait_loop, at_first_poll. unfold_m. cbn.
    unfold cur. cbn.
    destruct (Z.ltb_spec (now (oracle w (S (length (trace w)))) - now (oracle w (length (trace w)))) timeoutMs);
      [| lia].
    destruct (isProcessRunning pid _) as [r w2]. cbn.
    intros -> Hw Hrun. cbn. split; [reflexivity |].
    eapply evolves_trans; [exact Hw |].
    eapply evolves_trans; [exact Hrun |].
    eapply evolves_trans; [apply (evolves_event EvNow); reflexivity |].
    apply evolves_log.
Qed.

(** C1. The code at the input of the claim.  Process 4242 does not exist:
    [isProcessRunning] says so.  Yet [waitForProcessExit(4242, 0)] answers
    [false], however many turns the loop is allowed: it has read the clock
    twice and never polled the process.  With a timeout of five seconds the
    same call answers [true]. *)
Theorem waitForProcessExit_zero_timeout_dead_pid :
  fst (isProcessRunning 4242 bare_linux) = Val false /\
  fst (waitForProcessExit 1 4242 0 bare_linux) = Val (Some false) /\
  (forall fuel, fst (waitForProcessExit (S fuel) 4242 0 bare_linux) = Val (Some false)) /\
  trace (snd (waitForProcessExit 1 4242 0 bare_linux)) = [EvNow; EvNow] /\
  fst (waitForProcessExit 1 4242 5000 bare_linux) = Val (Some true).
Proof.
  split; [reflexivity |]. split; [reflexivity |].
  split; [| split; reflexivity].
  intros fuel.
  apply (proj1 (waitForProcessExit_first_turn fuel 4242 0 bare_linux)).
  vm_compute. discriminate.
Qed.

(** ** Resolving a command *)

Lemma found_in_path_answer whichCommand cmdName w :
  fst (found_in_path whichCommand cmdName w) =
    Val (resolvable (spawn (cur w) whichCommand [cmdName])).
Proof.
  unfold found_in_path, resolvable. unfold_m. cbn.
  destruct (spawn (cur w) whichCommand [cmdName]) as [result | e]; cbn;
    [| reflexivity].
  destruct (stdout result) as [out |]; cbn; [| reflexivity].
  now destruct (status_is_zero (status result) && Js.truthy out && Js.truthy (Js.trim out)).
Qed.

Lemma runs_found_in_path whichCommand cmdName : runs (found_in_path whichCommand cmdName).
Proof. unfold found_in_path. walk. Qed.

Lemma runs_probe_ok probe : runs probe -> runs (probe_ok probe).
Proof. intros H. unfold probe_ok. walk. Qed.

Lemma total_probe_ok probe : total (probe_ok probe).
Proof. unfold probe_ok. walk. Qed.

#[local] Hint Resolve runs_found_in_path runs_probe_ok total_probe_ok : js.

Lemma runs_first_spawning probe candidates :
  (forall c, runs (probe c)) -> runs (first_spawning probe candidates).
Proof. intros H. induction candidates as [| c rest IH]; cbn; walk. Qed.

Lemma total_first_spawning probe candidates : total (first_spawning probe candidates).
Proof. induction candidates as [| c rest IH]; cbn; walk. Qed.

#[local] Hint Resolve runs_first_spawning total_first_spawning : js.

Lemma runs_getUserShell : runs getUserShell.
Proof.
  unfold getUserShell, getUserShell_default, getUserShell_win32, getUserShell_unix.
  walk.
Qed.

(** Shell discovery swallows every failure of its probes. *)
Lemma total_getUserShell : total getUserShell.
Proof.
  unfold getUserShell, getUserShell_default, getUserShell_win32, getUserShell_unix.
  walk.
Qed.

Lemma unix_like_not_win32 p b :
  is_unix_like p = true ->
  String.eqb (platformType_of b p) "win32" = false /\
  is_unix_like (platformType_of b p) = true.
Proof.
  intros H. destruct b; cbn; [now split |]. split; [| exact H].
  destruct (String.eqb_spec p "win32") as [-> |]; [discriminate H | reflexivity].
Qed.

Lemma total_resolveCommand cmdName cmdArgs : total (resolveCommand (cmdName :: cmdArgs)).
Proof.
  unfold resolveCommand.
  pose proof total_getUserShell. pose proof (total_try_catch (A := bool)).
  unfold found_in_path. walk.
Qed.

(** C7. On the empty vector [resolveCommand] throws the error "No command
    provided" and leaves the world as it found it (no lookup process was
    spawned, nothing was probed); on every other vector it returns a plan. *)
Theorem resolveCommand_raises_only_on_empty :
  (forall w, resolveCommand [] w = (Throw (mkError "No command provided" None), w)) /\
  (forall cmd w, cmd <> [] -> exists plan, fst (resolveCommand cmd w) = Val plan).
Proof.
  split; [reflexivity |].
  intros [| cmdName cmdArgs] w H; [contradiction |].
  apply total_resolveCommand.
Qed.

Lemma resolveCommand_raises_only_on_empty_witness :
  exists plan, fst (resolveCommand ["ls"; "-la"] everything_on_path) = Val plan.
Proof.
  apply (proj2 resolveCommand_raises_only_on_empty ["ls"; "-la"] everything_on_path).
  discriminate.
Defined.

Lemma unix_like_is_not_win32 p :
  is_unix_like p = true -> String.eqb p "win32" = false.
Proof. intros H. exact (proj1 (unix_like_not_win32 p false H)). Qed.

(** When the lookup does not resolve the head, [resolveCommand] goes on in
    the world [after_lookup]: it asks [getUserShell] for the shell, then
    [getPlatformType] for the platform type, and builds the plan from the
    two answers. *)
Lemma resolveCommand_through_shell cmdName cmdArgs w :
  resolvable (spawn (cur w) (whichCommand_of (platform w)) [cmdName]) = false ->
  exists userShell b,
    fst (getUserShell (after_lookup cmdName w)) = Val userShell /\
    fst (getPlatformType (snd (getUserShell (after_lookup cmdName w)))) =
      Val (platformType_of b (platform w)) /\
    _isWSL2 (snd (getPlatformType (snd (getUserShell (after_lookup cmdName w))))) =
      Some b /\
    fst (resolveCommand (cmdName :: cmdArgs) w) =
      Val (shell_plan (platformType_of b (platform w)) userShell cmdName cmdArgs).
Proof.
  intros Hl.
  pose proof (found_in_path_answer (whichCommand_of (platform w)) cmdName w) as Hf.
  pose proof (runs_found_in_path (whichCommand_of (platform w)) cmdName w) as Hr.
  rewrite Hl in Hf.
  unfold after_lookup, resolveCommand, get_platform.
  fold (whichCommand_of (platform w)).
  unfold bind at 1. cbv zeta. unfold bind at 1.
  destruct (found_in_path _ cmdName w) as [r w1]. cbn in Hf, Hr. subst r.
  cbv iota. unfold bind at 1, logger at 1. unfold bind at 1. cbn [snd].
  match goal with |- context [getUserShell ?w0] =>
    pose proof (total_getUserShell w0) as [userShell Hs];
    pose proof (runs_getUserShell w0) as Hr2
  end.
  destruct (getUserShell _) as [r w2]. cbn in Hs, Hr2. subst r. cbn [fst snd].
  destruct (getPlatformType_memoises w2) as (b & Hv & Hc & _).
  assert (Hp : platform w2 = platform w).
  { destruct Hr as (Hp1 & _), Hr2 as (Hp2 & _). cbn in Hp2. congruence. }
  rewrite Hp in Hv.
  exists userShell, b. split; [reflexivity |]. split; [exact Hv |].
  split; [exact Hc |].
  unfold bind at 1. destruct (getPlatformType w2) as [r w3]. cbn in Hv. subst r.
  unfold shell_plan. cbv zeta.
  destruct (String.eqb (platformType_of b (platform w)) "win32").
  - destruct (Js.includes userShell "bash");
      [now destruct (negb _) |].
    now destruct (Js.includes userShell "pwsh" || Js.includes userShell "powershell").
  - destruct (is_unix_like _); [now destruct (negb _) | reflexivity].
Qed.

(** C2 (as the code has it). [bash] without arguments is classified as an
    interactive shell session.  [resolveCommand(["bash"])] first looks
    [bash] up on the search path: when the lookup resolves it, the plan is
    the direct one, [{ command: "bash", args: [], useShell: false }].  When
    it does not, the plan is made from [userShell], the very answer of
    [getUserShell] in the world the failed lookup leaves behind, and from
    [platformType], the answer [getPlatformType] gives next.  The arguments
    are the interactive form [-i -c "bash"] exactly when the platform type
    is Unix-like (which it is whenever [process.platform] is), or it is
    [win32] and the shell's name contains [bash]; on [win32] with a
    PowerShell they are [-NoLogo -Command "bash"], with any other shell
    [/C "bash"]; on a platform of another kind the plan is the direct
    one. *)
Theorem resolveCommand_bash (w : World) :
  let lookup := spawn (cur w) (whichCommand_of (platform w)) ["bash"] in
  isInteractiveShellCommand "bash" [] = true /\
  (resolvable lookup = true ->
   fst (resolveCommand ["bash"] w) = Val (mkPlan "bash" [] false)) /\
  (resolvable lookup = false ->
   exists userShell platformType,
     fst (getUserShell (after_lookup "bash" w)) = Val userShell /\
     fst (getPlatformType (snd (getUserShell (after_lookup "bash" w)))) =
       Val platformType /\
     (is_unix_like (platform w) = true -> is_unix_like platformType = true) /\
     fst (resolveCommand ["bash"] w) =
       Val (if is_unix_like platformType
               || String.eqb platformType "win32" && Js.includes userShell "bash"
            then mkPlan userShell ["-i"; "-c"; "bash"] true
            else if String.eqb platformType "win32" then
              if Js.includes userShell "pwsh" || Js.includes userShell "powershell"
              then mkPlan userShell ["-NoLogo"; "-Command"; "bash"] true
              else mkPlan userShell ["/C"; "bash"] true
            else mkPlan "bash" [] false)).
Proof.
  cbv zeta. split; [reflexivity |]. split; intros Hl.
  - pose proof (found_in_path_answer (whichCommand_of (platform w)) "bash" w) as Hf.
    rewrite Hl in Hf.
    unfold resolveCommand, get_platform. fold (whichCommand_of (platform w)).
    unfold bind at 1. cbv zeta. unfold bind at 1.
    destruct (found_in_path _ "bash" w) as [r w1]. cbn in Hf. subst r.
    reflexivity.
  - destruct (resolveCommand_through_shell "bash" [] w Hl)
      as (userShell & b & Hs & Hv & _ & ->).
    exists userShell, (platformType_of b (platform w)).
    split; [exact Hs |]. split; [exact Hv |].
    split; [intros Hu; exact (proj2 (unix_like_not_win32 _ b Hu)) |].
    unfold shell_plan. cbv zeta.
    change (isInteractiveShellCommand "bash" []) with true. cbn [negb].
    change (Js.join " " ["bash"]) with "bash".
    destruct (is_unix_like (platformType_of b (platform w))) eqn:Hu.
    + now rewrite (unix_like_is_not_win32 _ Hu).
    + destruct (String.eqb (platformType_of b (platform w)) "win32"); cbn [orb andb];
        [| reflexivity].
      now destruct (Js.includes userShell "bash").
Qed.

Lemma resolveCommand_bash_witness :
  fst (resolveCommand ["bash"] everything_on_path) = Val (mkPlan "bash" [] false) /\
  fst (resolveCommand ["bash"] bare_linux) =
    Val (mkPlan "/bin/sh" ["-i"; "-c"; "bash"] true) /\
  fst (resolveCommand ["bash"] (windows_with_shell "C:\Program Files\Git\bin\bash.exe")) =
    Val (mkPlan "C:\Program Files\Git\bin\bash.exe" ["-i"; "-c"; "bash"] true) /\
  fst (resolveCommand ["bash"] (windows_with_shell "pwsh")) =
    Val (mkPlan "pwsh" ["-NoLogo"; "-Command"; "bash"] true).
Proof.
  split; [| split; [| split]].
  - apply (proj1 (proj2 (resolveCommand_bash everything_on_path))). reflexivity.
  - destruct (proj2 (proj2 (resolveCommand_bash bare_linux)) eq_refl)
      as (userShell & platformType & Hs & Hv & _ & ->).
    vm_compute in Hs, Hv.
    injection Hs as <-. injection Hv as <-. reflexivity.
  - destruct (proj2 (proj2 (resolveCommand_bash
                 (windows_with_shell "C:\Program Files\Git\bin\bash.exe"))) eq_refl)
      as (userShell & platformType & Hs & Hv & _ & ->).
    vm_compute in Hs, Hv.
    injection Hs as <-. injection Hv as <-. reflexivity.
  - destruct (proj2 (proj2 (resolveCommand_bash (windows_with_shell "pwsh"))) eq_refl)
      as (userShell & platformType & Hs & Hv & _ & ->).
    vm_compute in Hs, Hv.
    injection Hs as <-. injection Hv as <-. reflexivity.
Defined.

(** C2 (as stated) fails: where [which] finds [bash], the plan is not routed
    through a shell; on Windows with PowerShell as the shell, and on a
    platform of an unrecognised kind, the arguments are not [-i -c "bash"]
    either. *)
Lemma resolveCommand_bash_not_always_interactive :
  (~ exists userShell,
       fst (resolveCommand ["bash"] everything_on_path) =
         Val (mkPlan userShell ["-i"; "-c"; "bash"] true)) /\
  (~ exists userShell,
       fst (resolveCommand ["bash"] (windows_with_shell "pwsh")) =
         Val (mkPlan userShell ["-i"; "-c"; "bash"] true)) /\
  (~ exists userShell,
       fst (resolveCommand ["bash"] bare_freebsd) =
         Val (mkPlan userShell ["-i"; "-c"; "bash"] true)).
Proof.
  repeat split; intros [userShell H]; vm_compute in H; discriminate H.
Qed.

(** ** The process listing is searched for an exact token *)

Section Token.
Lemma includes_cons c s p :
  Js.includes (String c s) p = String.prefix p (String c s) || Js.includes s p.
Proof. reflexivity. Qed.

Lemma prefix_empty s : String.prefix EmptyString s = true.
Proof. now destruct s. Qed.

Lemma append_cons c s t : String c s +:+ t = String c (s +:+ t).
Proof. reflexivity. Qed.

Lemma append_nil t : EmptyString +:+ t = t.
Proof. reflexivity. Qed.

Ltac push_append := rewrite ?append_cons, ?append_nil.

Lemma append_assoc3 (a b c : string) : (a +:+ b) +:+ c = a +:+ (b +:+ c).
Proof.
  induction a as [| x a IH]; push_append; [reflexivity | now rewrite IH].
Qed.

Lemma quoted_alone f : quoted f = String quote_char (f +:+ String quote_char EmptyString).
Proof. reflexivity. Qed.

Lemma quoted_append f tail : quoted f +:+ tail = String quote_char (f +:+ String quote_char tail).
Proof.
  rewrite quoted_alone. push_append. now rewrite append_assoc3.
Qed.

(** Text without a quote cannot hold the start of a quoted token. *)
Lemma includes_skip a b p :
  quote_free a = true ->
  Js.includes (a +:+ b) (String quote_char p) = Js.includes b (String quote_char p).
Proof.
  induction a as [| c a IH]; push_append; [reflexivity |].
  cbn [quote_free]. intros H. apply andb_true_iff in H as [Hc Ha].
  rewrite includes_cons, (IH Ha). cbn [String.prefix].
  destruct (ascii_dec quote_char c) as [<- |]; [discriminate Hc | reflexivity].
Qed.

(** Two quote-free fields, each closed by a quote: one is a prefix of the
    other only if they are the same field. *)
Lemma prefix_field d : forall f r1 r2,
  quote_free d = true -> quote_free f = true ->
  String.prefix (d +:+ String quote_char r1) (f +:+ String quote_char r2) =
    String.eqb d f && String.prefix r1 r2.
Proof.
  induction d as [| a d IH]; intros [| c f] r1 r2 Hd Hf; push_append;
    cbn [quote_free String.prefix String.eqb] in *.
  - destruct (ascii_dec quote_char quote_char); [reflexivity | contradiction].
  - apply andb_true_iff in Hf as [Hc _].
    destruct (ascii_dec quote_char c) as [<- |]; [discriminate Hc | reflexivity].
  - apply andb_true_iff in Hd as [Ha _].
    destruct (ascii_dec a quote_char) as [-> |]; [discriminate Ha | reflexivity].
  - apply andb_true_iff in Hd as [_ Hd]. apply andb_true_iff in Hf as [_ Hf].
    change (String.eqb (String a d) (String c f))
      with (if Ascii.eqb a c then String.eqb d f else false).
    destruct (ascii_dec a c) as [-> | Hne].
    + rewrite Ascii.eqb_refl. now apply IH.
    + apply Ascii.eqb_neq in Hne. now rewrite Hne.
Qed.

Lemma prefix_blocked d x tail :
  digit_head d = true -> no_digit_head tail = true ->
  String.prefix (d +:+ x) tail = false.
Proof.
  destruct d as [| a d]; [discriminate |].
  destruct tail as [| c tail]; push_append; cbn; [reflexivity |].
  intros Ha Hc. destruct (ascii_dec a c) as [-> |]; [| reflexivity].
  rewrite Ha in Hc. discriminate Hc.
Qed.

Variable d : string.
Hypothesis d_quote_free : quote_free d = true.
Hypothesis d_digit_head : digit_head d = true.

Lemma includes_field f tail :
  quote_free f = true -> no_digit_head tail = true ->
  Js.includes (quoted f +:+ tail) (quoted d) =
    String.eqb d f || Js.includes tail (quoted d).
Proof.
  intros Hf Ht. rewrite quoted_append, quoted_alone.
  rewrite includes_cons. cbn [String.prefix].
  destruct (ascii_dec quote_char quote_char); [| contradiction].
  rewrite (prefix_field d f _ _ d_quote_free Hf), prefix_empty, andb_true_r.
  f_equal.
  rewrite (includes_skip f _ _ Hf), includes_cons. cbn [String.prefix].
  destruct (ascii_dec quote_char quote_char); [| contradiction].
  now rewrite (prefix_blocked d _ tail d_digit_head Ht).
Qed.

Lemma includes_line fields : forall tail,
  Forall (fun f => quote_free f = true) fields -> no_digit_head tail = true ->
  Js.includes (csv_line fields +:+ tail) (quoted d) =
    existsb (String.eqb d) fields || Js.includes tail (quoted d).
Proof.
  unfold csv_line.
  induction fields as [| f fs IH]; intros tail Hq Ht; [reflexivity |].
  inversion Hq as [| ? ? Hf Hfs]; subst.
  destruct fs as [| f2 fs].
  - cbn [map String.concat existsb]. rewrite orb_false_r.
    now apply includes_field.
  - change (String.concat "," (map quoted (f :: f2 :: fs)))
      with (quoted f +:+ "," +:+ String.concat "," (map quoted (f2 :: fs))).
    rewrite !append_assoc3. rewrite includes_field by (assumption || reflexivity).
    change (existsb (String.eqb d) (f :: f2 :: fs))
      with (String.eqb d f || existsb (String.eqb d) (f2 :: fs)).
    rewrite <- orb_assoc. f_equal.
    rewrite (quoted_alone d), (includes_skip "," _ _ eq_refl), <- quoted_alone.
    now apply IH.
Qed.

Lemma includes_csv rows :
  Forall (Forall (fun f => quote_free f = true)) rows ->
  Js.includes (csv rows) (quoted d) = has_token d rows.
Proof.
  induction rows as [| r rest IH]; intros Hq; [reflexivity |].
  inversion Hq as [| ? ? Hr Hrest]; subst.
  cbn [csv has_token existsb].
  rewrite (includes_line r (crlf +:+ csv rest) Hr eq_refl). f_equal.
  rewrite (quoted_alone d), (includes_skip crlf _ _ eq_refl), <- quoted_alone.
  now apply IH.
Qed.
End Token.

Lemma csv_empty rows : Js.truthy (csv rows) = false -> rows = [].
Proof.
  destruct rows as [| r rest]; [reflexivity |]. cbn [csv].
  destruct (csv_line r); discriminate.
Qed.

Lemma uint_quote_free u : quote_free (NilEmpty.string_of_uint u) = true.
Proof. induction u; cbn; auto. Qed.

(** The numeral of a positive pid starts with a digit and holds no quote. *)
Lemma pid_numeral pid :
  0 < pid ->
  quote_free (Js.number_toString pid) = true /\
  digit_head (Js.number_toString pid) = true.
Proof.
  destruct pid as [| p | p]; try lia. intros _.
  unfold Js.number_toString. cbn [Z.to_int NilZero.string_of_int].
  unfold NilZero.string_of_uint.
  pose proof (DecimalPos.Unsigned.to_uint_nonnil p) as Hnz.
  destruct (Pos.to_uint p) eqn:E; try contradiction;
    (split; [apply (uint_quote_free (_ _)) | reflexivity]).
Qed.




(** ** More on platform detection *)

(** X1. [isWSL2] answers [true] only on the evidence of the kernel: either
    the flag already held [true], or the platform is Linux and
    [/proc/version] was there, could be read, and holds "wsl2" once
    lower-cased.  The WSL environment variables alone never yield [true]. *)
Theorem isWSL2_true_only_on_kernel_evidence (w : World) :
  fst (isWSL2 w) = Val true ->
  _isWSL2 w = Some true \/
  (platform w = "linux" /\
   fs_exists (cur w) "/proc/version" = true /\
   exists content,
     fs_read (cur (record_event (EvExists "/proc/version") w)) "/proc/version" = Val content /\
     version_marker (Js.toLowerCase content) = true).
Proof.
  unfold isWSL2, check_proc_version, wslEnvVars, some_env, version_marker.
  unfold_m. cbn.
  destruct (_isWSL2 w) as [[|] |] eqn:Hc; cbn; try (now auto); try discriminate.
  destruct (String.eqb_spec (platform w) "linux") as [Hp | Hp]; cbn; [| discriminate].
  destruct (fs_exists (cur w) "/proc/version") eqn:He; cbn.
  - destruct (fs_read _ "/proc/version") as [content | e] eqn:Hr; cbn;
      [| discriminate].
    destruct (Js.includes (Js.toLowerCase content) "wsl2") eqn:Hv;
      rewrite ?andb_true_r, ?andb_false_r; cbn.
    + intros _. right. repeat split; auto. exists content. now split.
    + repeat (split_match; cbn); discriminate.
  - repeat (split_match; cbn); discriminate.
Qed.

Lemma isWSL2_true_only_on_kernel_evidence_witness :
  _isWSL2 (with_version wsl2_version) = Some true \/
  (platform (with_version wsl2_version) = "linux" /\
   fs_exists (cur (with_version wsl2_version)) "/proc/version" = true /\
   exists content,
     fs_read (cur (record_event (EvExists "/proc/version") (with_version wsl2_version)))
       "/proc/version" = Val content /\
     version_marker (Js.toLowerCase content) = true).
Proof.
  apply (isWSL2_true_only_on_kernel_evidence (with_version wsl2_version)).
  reflexivity.
Defined.

(** The events a trace gained since it was [t0]. *)
Ltac gained t t0 :=
  lazymatch t with
  | t0 => constr:(@nil Event)
  | ?e :: ?t' => let p := gained t' t0 in constr:(e :: p)
  end.

Ltac give_gained :=
  match goal with
  | |- exists evs, ?t = evs ++ ?t0 /\ _ => let p := gained t t0 in exists p
  end.

(** X2. Platform detection is frugal.  Whatever it finds, one call of
    [isWSL2] has at most five interactions, each of them the existence check
    or the read of [/proc/version] or a read of one of the three WSL
    variables; it reads the file at most once; and it has no interaction at
    all when the platform is not Linux or the flag is already set. *)
Theorem isWSL2_probe_budget (w : World) :
  exists evs,
    trace (snd (isWSL2 w)) = evs ++ trace w /\
    forallb is_wsl_probe evs = true /\
    (length (List.filter is_file_read evs) <= 1)%nat /\
    (length evs <= 5)%nat /\
    (platform w <> "linux" \/ _isWSL2 w <> None -> evs = []).
Proof.
  unfold isWSL2, check_proc_version, wslEnvVars, some_env.
  run; give_gained; (split; [reflexivity |]); (split; [reflexivity |]);
    (split; [cbn; lia |]); (split; [cbn; lia |]);
    try reflexivity;
    intros [H | H]; try congruence;
    apply String.eqb_neq in H;
    match goal with
    | E : negb (String.eqb (platform w) "linux") = false |- _ =>
        rewrite H in E; discriminate E
    end.
Qed.

(** X3. When [/proc/version] exists but reading it throws, the first
    detection on Linux answers [false], memoises [false] and logs the
    failure with the error caught; the WSL environment variables are not
    consulted. *)
Theorem isWSL2_unreadable_kernel_file (w : World) (e : JsError) :
  platform w = "linux" ->
  _isWSL2 w = None ->
  fs_exists (cur w) "/proc/version" = true ->
  fs_read (cur (record_event (EvExists "/proc/version") w)) "/proc/version" = Throw e ->
  let w' := snd (isWSL2 w) in
  fst (isWSL2 w) = Val false /\
  _isWSL2 w' = Some false /\
  trace w' = EvReadFile "/proc/version" :: EvExists "/proc/version" :: trace w /\
  log w' = (LvWarn, [Plain "Failed to detect WSL2 environment:"; Caught e]) :: log w.
Proof.
  intros Hp Hc He Hr. unfold isWSL2, check_proc_version. unfold_m.
  rewrite Hc, Hp, String.eqb_refl. cbn. rewrite He. cbn.
  unfold cur in Hr |- *. cbn in Hr |- *. rewrite Hr. cbn. auto.
Qed.

Lemma isWSL2_unreadable_kernel_file_witness :
  let w := mkWorld "linux" ∅
             (fun _ => mkEnv (fun _ => true) (fun _ => Throw ENOENT) (spawn bare)
                         (kill bare) (user_shell bare) (now bare))
             None [] [] in
  fst (isWSL2 w) = Val false /\
  _isWSL2 (snd (isWSL2 w)) = Some false /\
  trace (snd (isWSL2 w)) = [EvReadFile "/proc/version"; EvExists "/proc/version"] /\
  log (snd (isWSL2 w)) = [(LvWarn, [Plain "Failed to detect WSL2 environment:"; Caught ENOENT])].
Proof.
  cbv zeta.
  apply (isWSL2_unreadable_kernel_file
           (mkWorld "linux" ∅
              (fun _ => mkEnv (fun _ => true) (fun _ => Throw ENOENT) (spawn bare)
                          (kill bare) (user_shell bare) (now bare))
              None [] []) ENOENT); reflexivity.
Defined.

(** X4. On Linux, when the first detection finds no kernel evidence
    ([/proc/version] is missing, or its lower-cased text holds neither
    "microsoft" nor "wsl"), it answers [false] and memoises [false] whatever
    the environment variables say; the two "unable to confirm" messages are
    logged exactly when one of [WSL_DISTRO_NAME], [WSL_INTEROP], [WSLENV] is
    set to a non-empty value. *)
Theorem isWSL2_without_kernel_markers (w : World) :
  platform w = "linux" ->
  _isWSL2 w = None ->
  (fs_exists (cur w) "/proc/version" = false \/
   (fs_exists (cur w) "/proc/version" = true /\
    exists content,
      fs_read (cur (record_event (EvExists "/proc/version") w)) "/proc/version" = Val content /\
      vendor_marker (Js.toLowerCase content) = false)) ->
  let w' := snd (isWSL2 w) in
  fst (isWSL2 w) = Val false /\
  _isWSL2 w' = Some false /\
  log w' = (if wsl_env_set (env_vars w) then unconfirmed_warnings else []) ++ log w.
Proof.
  intros Hp Hc Hk. unfold isWSL2, check_proc_version, vendor_marker in *.
  unfold wsl_env_set, wslEnvVars, some_env. unfold_m.
  rewrite Hc, Hp, String.eqb_refl. cbn.
  destruct Hk as [He | (He & content & Hr & Hv)]; rewrite He; cbn.
  - repeat (split_match; cbn); auto.
  - unfold cur in Hr |- *. cbn in Hr |- *. rewrite Hr. cbn. rewrite Hv. cbn.
    repeat (split_match; cbn); auto.
Qed.

Lemma isWSL2_without_kernel_markers_witness :
  let w := mkWorld "linux" {[ "WSL_DISTRO_NAME" := "Ubuntu" ]} (fun _ => bare) None [] [] in
  fst (isWSL2 w) = Val false /\
  _isWSL2 (snd (isWSL2 w)) = Some false /\
  log (snd (isWSL2 w)) = unconfirmed_warnings ++ [].
Proof.
  cbv zeta.
  generalize (isWSL2_without_kernel_markers
                (mkWorld "linux" {[ "WSL_DISTRO_NAME" := "Ubuntu" ]} (fun _ => bare) None [] [])
                eq_refl eq_refl (or_introl eq_refl)).
  vm_compute. exact (fun H => H).
Defined.

(** ** More on liveness and termination *)

(** On Windows proper (the flag does not say WSL2), platform detection has
    no interaction and answers "win32". *)
Lemma getPlatformType_win32 w :
  platform w = "win32" -> _isWSL2 w <> Some true ->
  fst (getPlatformType w) = Val "win32" /\
  trace (snd (getPlatformType w)) = trace w /\
  oracle (snd (getPlatformType w)) = oracle w.
Proof.
  intros Hp Hc. unfold getPlatformType, isWSL2. unfold_m.
  destruct (_isWSL2 w) as [[|] |]; cbn; rewrite ?Hp; auto; [contradiction |].
  change (String.eqb "win32" "linux") with false. cbn. rewrite Hp. auto.
Qed.

Lemma try_catch_total {A} (body : M A) handler w :
  total body -> try_catch body handler w = body w.
Proof.
  intros H. unfold try_catch. destruct (H w) as [a Ha].
  destruct (body w) as [r w']. cbn in Ha. now subst r.
Qed.

Lemma total_isProcessRunningWindows pid : total (isProcessRunningWindows pid).
Proof. unfold isProcessRunningWindows. walk. Qed.

(** On Windows proper the liveness check is the [tasklist] check, run where
    detection left off. *)
Lemma isProcessRunning_on_windows pid w :
  0 < pid -> platform w = "win32" -> _isWSL2 w <> Some true ->
  exists w1, trace w1 = trace w /\ oracle w1 = oracle w /\
             isProcessRunning pid w = isProcessRunningWindows pid w1.
Proof.
  intros Hpid Hp Hc. unfold isProcessRunning. rewrite (bad_pid_positive _ Hpid).
  destruct (getPlatformType_win32 w Hp Hc) as (Hv & Ht & Ho).
  exists (snd (getPlatformType w)). repeat split; auto.
  unfold try_catch at 1, bind at 1.
  destruct (getPlatformType w) as [r w1]. cbn in Hv |- *. subst r.
  change (String.eqb "win32" "win32") with true. cbv iota.
  pose proof (total_isProcessRunningWindows pid w1) as [b Hb].
  destruct (isProcessRunningWindows pid w1) as [r w2]. cbn in Hb. now subst r.
Qed.

(** X5. On Windows, for [pid > 0], [isProcessRunning] has exactly one
    interaction, the spawn of [tasklist] filtered on the pid (no signal is
    sent), and it answers [false] whenever [tasklist] throws, exits with a
    status other than zero, is killed by the timeout or prints nothing. *)
Theorem isProcessRunning_windows_probe (pid : Z) (w : World) :
  0 < pid -> platform w = "win32" -> _isWSL2 w <> Some true ->
  trace (snd (isProcessRunning pid w)) = EvSpawn "tasklist" (tasklist_args pid) :: trace w /\
  (tasklist_failed (spawn (cur w) "tasklist" (tasklist_args pid)) = true ->
   fst (isProcessRunning pid w) = Val false).
Proof.
  intros Hpid Hp Hc.
  destruct (isProcessRunning_on_windows pid w Hpid Hp Hc) as (w1 & Ht & Ho & ->).
  unfold isProcessRunningWindows, tasklist_failed, tasklist_args. unfold_m. cbn.
  unfold cur. cbn. rewrite Ht, Ho.
  destruct (spawn _ "tasklist" _) as [[st out] | e]; cbn; rewrite ?Ht; [| auto].
  destruct out as [out |]; cbn; rewrite ?Ht; [| auto].
  destruct (status_is_zero st); cbn; rewrite ?Ht; [| auto].
  destruct (Js.truthy out); cbn; rewrite ?Ht; [| auto].
  split; [reflexivity | discriminate].
Qed.

Lemma isProcessRunning_windows_probe_witness :
  trace (snd (isProcessRunning 12 (windows_listing EmptyString))) =
    [EvSpawn "tasklist" (tasklist_args 12)] /\
  fst (isProcessRunning 12 (windows_listing EmptyString)) = Val false.
Proof.
  destruct (isProcessRunning_windows_probe 12 (windows_listing EmptyString))
    as [Ht Hf]; [lia | reflexivity | discriminate |].
  split; [exact Ht | apply Hf; reflexivity].
Defined.

(** X6. Off Windows, for [pid > 0], [killProcess] delivers the signal it was
    given, once, and answers whether the delivery returned without throwing;
    it never throws itself, and it goes by [process.platform] alone: no
    WSL2 detection takes place. *)
Theorem killProcess_unix (pid : Z) (signal : Signal) (w : World) :
  0 < pid -> platform w <> "win32" ->
  let w' := snd (killProcess pid signal w) in
  fst (killProcess pid signal w) = Val (delivered (kill (cur w) pid signal)) /\
  trace w' = EvKill pid signal :: trace w /\
  _isWSL2 w' = _isWSL2 w.
Proof.
  intros Hpid Hp. unfold killProcess. rewrite (bad_pid_positive _ Hpid).
  apply String.eqb_neq in Hp. unfold_m. cbn. rewrite Hp.
  unfold cur. cbn. destruct (kill _ pid signal); cbn; auto.
Qed.

Lemma killProcess_unix_witness :
  fst (killProcess 4242 SIGTERM (foreign_process 4242)) = Val false /\
  trace (snd (killProcess 4242 SIGTERM (foreign_process 4242))) = [EvKill 4242 SIGTERM] /\
  _isWSL2 (snd (killProcess 4242 SIGTERM (foreign_process 4242))) = None.
Proof.
  apply (killProcess_unix 4242 SIGTERM (foreign_process 4242)); [lia | discriminate].
Defined.

(** X7. On Windows, for [pid > 0], [killProcess] spawns [taskkill /PID pid /F]
    once and answers whether it exited with status zero; a throwing spawn or
    a timeout gives [false].  The signal asked for plays no part in the
    answer or in what is spawned: termination is always forced. *)
Theorem killProcess_windows (pid : Z) (signal signal' : Signal) (w : World) :
  0 < pid -> platform w = "win32" ->
  fst (killProcess pid signal w) =
    Val (exited_zero (spawn (cur w) "taskkill" (taskkill_args pid))) /\
  trace (snd (killProcess pid signal w)) = EvSpawn "taskkill" (taskkill_args pid) :: trace w /\
  fst (killProcess pid signal' w) = fst (killProcess pid signal w).
Proof.
  intros Hpid Hp. unfold killProcess. rewrite (bad_pid_positive _ Hpid).
  unfold taskkill_args, exited_zero. unfold_m. cbn. rewrite Hp.
  change (String.eqb "win32" "win32") with true. cbn. unfold cur. cbn.
  destruct (spawn _ "taskkill" _) as [[st out] | e]; cbn; auto.
  destruct (status_is_zero st); cbn; auto.
Qed.

Lemma killProcess_windows_witness :
  fst (killProcess 212 SIGTERM (windows_listing EmptyString)) = Val false /\
  trace (snd (killProcess 212 SIGTERM (windows_listing EmptyString))) =
    [EvSpawn "taskkill" (taskkill_args 212)] /\
  fst (killProcess 212 (SigNum 9) (windows_listing EmptyString)) =
    fst (killProcess 212 SIGTERM (windows_listing EmptyString)).
Proof.
  apply (killProcess_windows 212 SIGTERM (SigNum 9) (windows_listing EmptyString));
    [lia | reflexivity].
Defined.

(** ** More on waiting *)

(** One turn of the loop, spelled out. *)
Lemma wait_loop_turn fuel pid timeoutMs startTime w :
  wait_loop (S fuel) pid timeoutMs startTime w =
    if (now (cur w) - startTime <? timeoutMs)%Z then
      match isProcessRunning pid (record_event EvNow w) with
      | (Val true, w2) =>
          wait_loop fuel pid timeoutMs startTime (record_event (EvSleep checkInterval) w2)
      | (Val false, w2) =>
          (Val (Some true),
           record_log LvLog
             [Styled Green ("process " +:+ Js.number_toString pid +:+ " exited after " +:+ Js.number_toString (now (cur w2) - startTime) +:+ "ms")]
             (record_event EvNow w2))
      | (Throw e, w2) => (Throw e, w2)
      end
    else
      (Val (Some false),
       record_log LvLog
         [Styled Yellow ("process " +:+ Js.number_toString pid +:+ " did not exit within " +:+ Js.number_toString timeoutMs +:+ "ms timeout")]
         (record_event EvNow w)).
Proof.
  cbn [wait_loop]. unfold_m. cbn.
  destruct (now (cur w) - startTime <? timeoutMs)%Z; [| reflexivity].
  destruct (isProcessRunning pid (record_event EvNow w)) as [[[|] | e] w2];
    reflexivity.
Qed.

Lemma waitForProcessExit_start fuel pid timeoutMs w :
  waitForProcessExit fuel pid timeoutMs w =
    wait_loop fuel pid timeoutMs (now (cur w))
      (record_log LvDebug
         [Plain ("waiting for process " +:+ Js.number_toString pid +:+ " to exit (timeout: " +:+ Js.number_toString timeoutMs +:+ "ms)")]
         (record_event EvNow w)).
Proof. reflexivity. Qed.

Lemma evolves_length w w' : evolves w w' -> (length (trace w) <= length (trace w'))%nat.
Proof.
  intros (_ & _ & _ & evs & -> & _). rewrite length_app. lia.
Qed.

Lemma wait_loop_alive pid timeoutMs startTime w :
  0 < pid -> platform w <> "win32" ->
  (forall n, signal_verdict (kill (oracle w n) pid (SigNum 0)) = true) ->
  forall fuel w',
    platform w' = platform w -> oracle w' = oracle w ->
    fst (wait_loop fuel pid timeoutMs startTime w') = Val None \/
    fst (wait_loop fuel pid timeoutMs startTime w') = Val (Some false).
Proof.
  intros Hpid Hp Halive. induction fuel as [| fuel IH]; intros w' Hp' Ho'.
  - now left.
  - rewrite wait_loop_turn.
    destruct (now (cur w') - startTime <? timeoutMs)%Z; [| now right].
    pose proof (isProcessRunning_unix pid (record_event EvNow w') Hpid) as Hv.
    pose proof (runs_isProcessRunning pid (record_event EvNow w')) as Hr.
    pose proof (runs_getPlatformType (record_event EvNow w')) as Hg.
    destruct Hg as (_ & _ & Hog & _). unfold at_signal, cur in Hv.
    rewrite Hog in Hv. cbn in Hv. rewrite Ho', Halive in Hv.
    destruct (isProcessRunning pid (record_event EvNow w')) as [r w2].
    cbn in Hv, Hr. rewrite Hv by (cbn; congruence).
    destruct Hr as (Hp2 & _ & Ho2 & _). cbn in Hp2, Ho2.
    apply IH; cbn; congruence.
Qed.

(** X8. A process that answers the null signal at every moment (delivery
    succeeds, or is refused for lack of permission) is never reported to
    have exited: off Windows, for [pid > 0], [waitForProcessExit] is still
    looping when the fuel runs out or returns [false], whatever the clock
    does. *)
Theorem waitForProcessExit_alive (fuel : nat) (pid timeoutMs : Z) (w : World) :
  0 < pid -> platform w <> "win32" ->
  (forall n, signal_verdict (kill (oracle w n) pid (SigNum 0)) = true) ->
  fst (waitForProcessExit fuel pid timeoutMs w) = Val None \/
  fst (waitForProcessExit fuel pid timeoutMs w) = Val (Some false).
Proof.
  intros Hpid Hp Halive. rewrite waitForProcessExit_start.
  now apply (wait_loop_alive pid timeoutMs _ w Hpid Hp Halive).
Qed.

Lemma waitForProcessExit_alive_witness :
  fst (waitForProcessExit 5 4242 100 (ticking 4242)) = Val None \/
  fst (waitForProcessExit 5 4242 100 (ticking 4242)) = Val (Some false).
Proof.
  apply (waitForProcessExit_alive 5 4242 100 (ticking 4242));
    [lia | discriminate | intros n; reflexivity].
Defined.

Lemma total_Date_now : total Date_now.
Proof. intros w. now eexists. Qed.

Lemma total_sleep ms : total (sleep ms).
Proof. intros w. now eexists. Qed.

#[local] Hint Resolve total_Date_now total_sleep isProcessRunning_total : js.

Lemma total_wait_loop fuel pid timeoutMs startTime :
  total (wait_loop fuel pid timeoutMs startTime).
Proof. induction fuel as [| fuel IH]; cbn [wait_loop]; walk. Qed.

Lemma wait_loop_deadline pid timeoutMs startTime w k :
  (forall n, (k <= n)%nat -> timeoutMs <= now (oracle w n) - startTime) ->
  forall fuel w',
    oracle w' = oracle w -> (k <= length (trace w') + fuel)%nat ->
    exists b, fst (wait_loop (S fuel) pid timeoutMs startTime w') = Val (Some b).
Proof.
  intros Hk. induction fuel as [| fuel IH]; intros w' Ho Hlen;
    rewrite wait_loop_turn; unfold cur; rewrite Ho;
    destruct (Z.ltb_spec (now (oracle w (length (trace w'))) - startTime) timeoutMs)
      as [Hlt | Hge]; try (now exists false).
  - specialize (Hk (length (trace w')) ltac:(lia)). lia.
  - pose proof (isProcessRunning_total pid (record_event EvNow w')) as [b Hb].
    pose proof (runs_isProcessRunning pid (record_event EvNow w')) as Hr.
    destruct (isProcessRunning pid (record_event EvNow w')) as [r w2].
    cbn in Hb, Hr. subst r. destruct b; [| now exists true].
    apply IH.
    + destruct Hr as (_ & _ & Ho2 & _). cbn in *. congruence.
    + apply evolves_length in Hr. cbn in *. lia.
Qed.

(** X9. [waitForProcessExit] never throws, and it does not wait for ever:
    if from the [k]-th interaction on the clock reads at least [timeoutMs]
    past the start, the call has returned [true] or [false] by the time the
    loop has gone round enough to reach that interaction (each turn has at
    least one). *)
Theorem waitForProcessExit_returns (fuel : nat) (pid timeoutMs : Z) (w : World) (k : nat) :
  (exists r, fst (waitForProcessExit fuel pid timeoutMs w) = Val r) /\
  ((forall n, (k <= n)%nat -> timeoutMs <= now (oracle w n) - now (cur w)) ->
   (k <= length (trace w) + fuel)%nat ->
   exists b, fst (waitForProcessExit (S fuel) pid timeoutMs w) = Val (Some b)).
Proof.
  split.
  - rewrite waitForProcessExit_start. apply total_wait_loop.
  - intros Hk Hlen. rewrite waitForProcessExit_start.
    apply (wait_loop_deadline pid timeoutMs _ w k Hk); cbn; [reflexivity | lia].
Qed.

Lemma waitForProcessExit_returns_witness :
  exists b, fst (waitForProcessExit 4 4242 100 (ticking 4242)) = Val (Some b).
Proof.
  apply (proj2 (waitForProcessExit_returns 3 4242 100 (ticking 4242) 3));
    [intros n Hn; cbn; lia | cbn; lia].
Defined.

(** ** Classifying a command *)

Ltac push_app := rewrite ?append_cons, ?append_nil.

Lemma substring_all s : substring 0 (String.length s) s = s.
Proof. induction s as [| c s IH]; cbn; [reflexivity | now rewrite IH]. Qed.

Lemma substring_split s : forall k,
  (k <= String.length s)%nat ->
  s = substring 0 k s +:+ substring k (String.length s - k) s.
Proof.
  induction s as [| c s IH]; intros [| k] Hk; cbn in *; push_app;
    try reflexivity; try lia.
  - now rewrite substring_all.
  - f_equal. apply IH. lia.
Qed.

Lemma substring_suffix pre suf :
  substring (String.length pre) (String.length suf) (pre +:+ suf) = suf.
Proof.
  induction pre as [| c pre IH]; push_app; cbn; [apply substring_all | exact IH].
Qed.

Lemma length_append_string a b :
  String.length (a +:+ b) = (String.length a + String.length b)%nat.
Proof. induction a as [| c a IH]; push_app; cbn; [reflexivity | now rewrite IH]. Qed.

(** [endsWith] holds exactly of the strings that end with the suffix. *)
Lemma endsWith_spec s suffix :
  Js.endsWith s suffix = true <-> exists pre, s = pre +:+ suffix.
Proof.
  unfold Js.endsWith. cbv zeta. rewrite andb_true_iff, Nat.leb_le, String.eqb_eq.
  split.
  - intros [Hle Hsub].
    exists (substring 0 (String.length s - String.length suffix) s).
    pose proof (substring_split s (String.length s - String.length suffix)
                  ltac:(lia)) as H.
    replace (String.length s - (String.length s - String.length suffix))%nat
      with (String.length suffix) in H by lia.
    now rewrite Hsub in H.
  - intros [pre ->]. rewrite length_append_string. split; [lia |].
    replace (String.length pre + String.length suffix - String.length suffix)%nat
      with (String.length pre) by lia.
    apply substring_suffix.
Qed.

(** X10. [isInteractiveShellCommand] says yes exactly when the command name
    is one of the eight known shells, bare or as the last component of a
    path, and the arguments are empty or hold one of [-i], [--interactive],
    [-l], [--login]. *)
Theorem isInteractiveShellCommand_spec (cmdName : string) (args : list string) :
  isInteractiveShellCommand cmdName args = true <->
  is_shell_name cmdName /\ asks_interactive args.
Proof.
  unfold isInteractiveShellCommand, is_shell_name, asks_interactive. cbv zeta.
  assert (Hshell :
    existsb (fun shell => String.eqb cmdName shell || Js.endsWith cmdName ("/" +:+ shell)) shells = true <->
    exists shell, In shell shells /\
      (cmdName = shell \/ exists dir, cmdName = dir +:+ "/" +:+ shell)).
  { rewrite existsb_exists. split; intros (shell & Hin & H); exists shell; split; auto.
    - apply orb_true_iff in H as [H | H]; [left; now apply String.eqb_eq |].
      right. now apply endsWith_spec.
    - apply orb_true_iff. destruct H as [-> | H]; [left; apply String.eqb_refl |].
      right. now apply endsWith_spec. }
  assert (Hflag :
    existsb (fun arg => existsb (String.eqb arg) interactiveFlags) args = true <->
    exists arg, In arg args /\ In arg interactiveFlags).
  { rewrite existsb_exists. split; intros (arg & Hin & H); exists arg; split; auto.
    - apply existsb_exists in H as (flag & Hf & He). apply String.eqb_eq in He.
      now subst.
    - apply existsb_exists. exists arg. split; [exact H | apply String.eqb_refl]. }
  destruct (existsb _ shells); cbn.
  - destruct args as [| a args]; cbn [length Nat.eqb].
    + split; [intros _ | reflexivity]. split; [now apply Hshell | now left].
    + rewrite Hflag. split.
      * intros H. split; [now apply Hshell | now right].
      * intros [_ [H | H]]; [discriminate H | exact H].
  - split; [discriminate |]. intros [H _]. now apply Hshell in H.
Qed.

(** ** What computations return, and what they preserve *)

Section Returns.
Context {A B : Type}.

Lemma returns_ret (P : A -> Prop) a : P a -> returns P (ret a).
Proof. intros H w a' E. cbn in E. now inversion E; subst. Qed.

Lemma returns_bind (Q : A -> Prop) (P : B -> Prop) (m : M A) (k : A -> M B) :
  returns Q m -> (forall a, Q a -> returns P (k a)) -> returns P (bind m k).
Proof.
  intros Hm Hk w b. unfold bind. specialize (Hm w).
  destruct (m w) as [[a | e] w1]; cbn in *; [| discriminate].
  apply (Hk a); auto.
Qed.

Lemma returns_try_catch (P : A -> Prop) (body : M A) handler :
  returns P body -> (forall e, returns P (handler e)) -> returns P (try_catch body handler).
Proof.
  intros Hb Hh w a. unfold try_catch. specialize (Hb w).
  destruct (body w) as [[a' | e] w1]; cbn in *.
  - intros E. apply Hb. now rewrite E.
  - apply Hh.
Qed.

Lemma returns_any (m : M A) : returns (fun _ => True) m.
Proof. now intros w a _. Qed.
End Returns.

Section Keeps.
Variable I : World -> Prop.
Hypothesis I_event : forall e w, I w -> I (record_event e w).
Hypothesis I_log : forall l a w, I w -> I (record_log l a w).
Hypothesis I_isWSL2 : keeps I isWSL2.

Lemma keeps_ret {A} (a : A) : keeps I (ret a).
Proof. now intros w. Qed.

Lemma keeps_lift {A} (r : Result A) : keeps I (lift r).
Proof. now intros w. Qed.

Lemma keeps_bind {A B} (m : M A) (k : A -> M B) :
  keeps I m -> (forall a, keeps I (k a)) -> keeps I (bind m k).
Proof.
  intros Hm Hk w Hw. unfold bind. specialize (Hm w Hw).
  destruct (m w) as [[a | e] w1]; cbn in *; [now apply Hk | exact Hm].
Qed.

Lemma keeps_try_catch {A} (body : M A) handler :
  keeps I body -> (forall e, keeps I (handler e)) -> keeps I (try_catch body handler).
Proof.
  intros Hb Hh w Hw. unfold try_catch. specialize (Hb w Hw).
  destruct (body w) as [[a | e] w1]; cbn in *; [exact Hb | now apply Hh].
Qed.

Lemma keeps_observe e : keeps I (observe e).
Proof. intros w Hw. now apply I_event. Qed.

Lemma keeps_logger l a : keeps I (logger l a).
Proof. intros w Hw. now apply I_log. Qed.

Lemma keeps_get_platform : keeps I get_platform.
Proof. now intros w. Qed.

Lemma keeps_process_env name : keeps I (process_env name).
Proof. intros w Hw. now apply I_event. Qed.

Ltac stroll :=
  repeat first
    [ progress intros
    | solve [auto]
    | apply keeps_ret | apply keeps_lift | apply keeps_observe | apply keeps_logger
    | apply keeps_get_platform | apply keeps_process_env | apply I_isWSL2
    | apply keeps_bind
    | apply keeps_try_catch
    | match goal with
      | |- keeps _ (if ?c then _ else _) => destruct c
      | |- keeps _ (match ?x with _ => _ end) => destruct x
      end ].

Lemma keeps_spawnSync c a : keeps I (spawnSync c a).
Proof. unfold spawnSync. stroll. Qed.

Lemma keeps_process_kill pid sig : keeps I (process_kill pid sig).
Proof. unfold process_kill. stroll. Qed.

Lemma keeps_Date_now : keeps I Date_now.
Proof. unfold Date_now. stroll. Qed.

Lemma keeps_sleep ms : keeps I (sleep ms).
Proof. unfold sleep. stroll. Qed.

Lemma keeps_getPlatformType : keeps I getPlatformType.
Proof. unfold getPlatformType. stroll. Qed.

Lemma keeps_isProcessRunning pid : keeps I (isProcessRunning pid).
Proof.
  pose proof keeps_getPlatformType. pose proof keeps_spawnSync.
  pose proof keeps_process_kill.
  unfold isProcessRunning, isProcessRunningWindows, isProcessRunningUnix. stroll.
Qed.

Lemma keeps_getProcessInfo pid : keeps I (getProcessInfo pid).
Proof. pose proof keeps_isProcessRunning. unfold getProcessInfo. stroll. Qed.

Lemma keeps_killProcess pid signal : keeps I (killProcess pid signal).
Proof.
  pose proof keeps_spawnSync. pose proof keeps_process_kill.
  unfold killProcess. stroll.
Qed.

Lemma keeps_wait_loop fuel pid timeoutMs startTime :
  keeps I (wait_loop fuel pid timeoutMs startTime).
Proof.
  pose proof keeps_isProcessRunning. pose proof keeps_Date_now. pose proof keeps_sleep.
  induction fuel as [| fuel IH]; cbn [wait_loop]; stroll.
Qed.

Lemma keeps_waitForProcessExit fuel pid timeoutMs :
  keeps I (waitForProcessExit fuel pid timeoutMs).
Proof.
  pose proof keeps_wait_loop. pose proof keeps_Date_now.
  unfold waitForProcessExit. stroll.
Qed.

Lemma keeps_first_spawning probe candidates :
  (forall c, keeps I (probe c)) -> keeps I (first_spawning probe candidates).
Proof.
  intros H. induction candidates as [| c rest IH]; cbn [first_spawning];
    unfold probe_ok; stroll.
Qed.

Lemma keeps_getUserShell : keeps I getUserShell.
Proof.
  pose proof keeps_getPlatformType. pose proof keeps_spawnSync.
  assert (forall p cs, (forall c, keeps I (p c)) -> keeps I (first_spawning p cs))
    by (intros; now apply keeps_first_spawning).
  unfold getUserShell, getUserShell_default, getUserShell_win32, getUserShell_unix,
    probe_ok, os_userInfo_shell.
  stroll.
Qed.

Lemma keeps_resolveCommand cmd : keeps I (resolveCommand cmd).
Proof.
  pose proof keeps_getPlatformType. pose proof keeps_spawnSync.
  pose proof keeps_getUserShell.
  unfold resolveCommand, found_in_path. destruct cmd; [now intros w |]. stroll.
Qed.
End Keeps.

(** ** The memoised flag *)

Lemma isWSL2_off_linux w :
  platform w <> "linux" ->
  isWSL2 w = match _isWSL2 w with
             | Some b => (Val b, w)
             | None => (Val false, set_isWSL2 false w)
             end.
Proof.
  intros Hp. apply String.eqb_neq in Hp. unfold isWSL2. unfold_m.
  destruct (_isWSL2 w); cbn; [reflexivity |]. now rewrite Hp.
Qed.

Lemma set_flag_keeps_isWSL2 b : keeps (fun w => _isWSL2 w = Some b) isWSL2.
Proof. intros w Hw. now rewrite (isWSL2_cached w b Hw). Qed.

Lemma sober_keeps_isWSL2 : keeps sober isWSL2.
Proof.
  intros w [Hp Hc]. rewrite (isWSL2_off_linux w Hp).
  destruct (_isWSL2 w) as [b |] eqn:E; cbn; split; auto; cbn; congruence.
Qed.

(** X11. Once the flag is memoised, nothing the class does changes it:
    after [isWSL2], [getPlatformType], [isProcessRunning], [getProcessInfo],
    [killProcess], [waitForProcessExit], [getUserShell] or [resolveCommand],
    on any arguments and in any environment, it still holds the same
    value. *)
Theorem memoised_flag_is_final (b : bool) (w : World) :
  _isWSL2 w = Some b ->
  _isWSL2 (snd (isWSL2 w)) = Some b /\
  _isWSL2 (snd (getPlatformType w)) = Some b /\
  (forall pid, _isWSL2 (snd (isProcessRunning pid w)) = Some b) /\
  (forall pid, _isWSL2 (snd (getProcessInfo pid w)) = Some b) /\
  (forall pid signal, _isWSL2 (snd (killProcess pid signal w)) = Some b) /\
  (forall fuel pid timeoutMs,
     _isWSL2 (snd (waitForProcessExit fuel pid timeoutMs w)) = Some b) /\
  _isWSL2 (snd (getUserShell w)) = Some b /\
  (forall cmd, _isWSL2 (snd (resolveCommand cmd w)) = Some b).
Proof.
  intros Hw.
  pose (I := fun w : World => _isWSL2 w = Some b).
  assert (He : forall e w, I w -> I (record_event e w)) by (intros; assumption).
  assert (Hl : forall l a w, I w -> I (record_log l a w)) by (intros; assumption).
  pose proof (set_flag_keeps_isWSL2 b) as Hi.
  repeat split; intros.
  - now apply Hi.
  - apply (keeps_getPlatformType I); auto.
  - apply (keeps_isProcessRunning I); auto.
  - apply (keeps_getProcessInfo I); auto.
  - apply (keeps_killProcess I); auto.
  - apply (keeps_waitForProcessExit I); auto.
  - apply (keeps_getUserShell I); auto.
  - apply (keeps_resolveCommand I); auto.
Qed.

Lemma memoised_flag_is_final_witness :
  _isWSL2 (snd (resolveCommand ["bash"] (snd (getPlatformType bare_linux)))) = Some false.
Proof.
  apply (memoised_flag_is_final false (snd (getPlatformType bare_linux))).
  reflexivity.
Defined.

(** ** More on shell discovery *)

Lemma truthy_nonempty s : Js.truthy s = true -> s <> EmptyString.
Proof.
  unfold Js.truthy. intros H ->. discriminate H.
Qed.

Lemma nonempty_truthy s : s <> EmptyString -> Js.truthy s = true.
Proof. destruct s; [contradiction | reflexivity]. Qed.

Lemma or_default_nonempty o d : d <> EmptyString -> Js.or_default o d <> EmptyString.
Proof.
  intros Hd. destruct o as [s |]; cbn; [| exact Hd].
  destruct (Js.truthy s) eqn:E; [now apply truthy_nonempty | exact Hd].
Qed.

Lemma append_nonempty a c t : a +:+ String c t <> EmptyString.
Proof. destruct a; push_app; discriminate. Qed.

Lemma path_join_nonempty a b rest : path_join (a :: b :: rest) <> EmptyString.
Proof.
  unfold path_join, Js.join. cbn [String.concat]. apply append_nonempty.
Qed.

Lemma returns_first_spawning probe candidates :
  returns (fun found => forall c, found = Some c -> In c candidates)
    (first_spawning probe candidates).
Proof.
  induction candidates as [| c rest IH]; cbn [first_spawning].
  - apply returns_ret. discriminate.
  - eapply returns_bind; [apply returns_any |]. intros [|] _.
    + apply returns_ret. intros c' E. inversion E. now left.
    + intros w found E c' Hc. right. now apply (IH w found E).
Qed.

Lemma returns_getUserShell_default : returns (fun sh => sh <> EmptyString) getUserShell_default.
Proof.
  unfold getUserShell_default.
  eapply returns_bind; [apply returns_any |]. intros platformType _.
  destruct (String.eqb platformType "win32").
  - unfold getUserShell_win32.
    eapply returns_bind; [apply returns_any |]. intros [|] _;
      [apply returns_ret; discriminate |].
    eapply returns_bind; [apply returns_any |]. intros systemRoot _.
    eapply returns_bind; [apply returns_any |]. intros [|] _;
      [apply returns_ret; apply path_join_nonempty |].
    eapply returns_bind; [apply returns_any |]. intros programFiles _.
    eapply returns_bind; [apply returns_first_spawning |]. intros [gitBashPath |] Hin.
    + apply returns_ret. destruct (Hin _ eq_refl) as [<- | [<- | [<- | []]]];
        try discriminate. apply path_join_nonempty.
    + eapply returns_bind; [apply returns_any |]. intros comSpec _.
      apply returns_ret. now apply or_default_nonempty.
  - destruct (is_unix_like platformType); [| apply returns_ret; discriminate].
    unfold getUserShell_unix.
    eapply (returns_bind (fun o => forall sh, o = Some sh -> sh <> EmptyString)).
    + apply returns_try_catch; [| intros e; apply returns_ret; discriminate].
      eapply returns_bind; [apply returns_any |]. intros [sh |] _; cbn [Js.truthy_opt].
      * destruct (Js.truthy sh) eqn:E; apply returns_ret; [| discriminate].
        intros sh' H. inversion H; subst. now apply truthy_nonempty.
      * apply returns_ret. discriminate.
    + intros [sh |] Hsh; [apply returns_ret; now apply Hsh |].
      eapply returns_bind; [apply returns_first_spawning |]. intros [shell |] Hin;
        [| apply returns_ret; discriminate].
      apply returns_ret. specialize (Hin _ eq_refl).
      destruct (String.eqb platformType "wsl2");
        destruct Hin as [<- | [<- | [<- | [<- | [<- | []]]]]]; discriminate.
Qed.

Lemma getUserShell_nonempty : returns (fun sh => sh <> EmptyString) getUserShell.
Proof.
  intros w sh. unfold getUserShell. unfold bind at 1, process_env at 1. cbn.
  destruct (env_vars w !! "SHELL") as [s |] eqn:E; cbn.
  - destruct (Js.truthy s) eqn:Ht.
    + unfold bind, process_env, ret. cbn. rewrite E. cbn. rewrite Ht.
      intros H. inversion H; subst. now apply truthy_nonempty.
    + apply returns_getUserShell_default.
  - apply returns_getUserShell_default.
Qed.

(** X12. [getUserShell] always comes back with a shell: it never throws,
    whatever its probes do, and the name it returns is never the empty
    string. *)
Theorem getUserShell_always_a_shell (w : World) :
  exists sh, fst (getUserShell w) = Val sh /\ sh <> EmptyString.
Proof.
  destruct (total_getUserShell w) as [sh H]. exists sh. split; [exact H |].
  now apply (getUserShell_nonempty w sh).
Qed.

(** X13. A non-empty [SHELL] variable is authoritative: [getUserShell]
    returns it after reading that variable (twice) and nothing else: no
    process is spawned, the platform is not detected. *)
Theorem getUserShell_honours_SHELL (w : World) (sh : string) :
  env_vars w !! "SHELL" = Some sh -> sh <> EmptyString ->
  getUserShell w =
    (Val sh, record_event (EvEnv "SHELL") (record_event (EvEnv "SHELL") w)).
Proof.
  intros E Hsh. apply nonempty_truthy in Hsh.
  unfold getUserShell. unfold_m. cbn. rewrite E. cbn. rewrite Hsh. cbn.
  rewrite E. cbn. now rewrite Hsh.
Qed.

Lemma getUserShell_honours_SHELL_witness :
  let w := mkWorld "linux" {[ "SHELL" := "/usr/bin/fish" ]} (fun _ => bare) None [] [] in
  getUserShell w =
    (Val "/usr/bin/fish", record_event (EvEnv "SHELL") (record_event (EvEnv "SHELL") w)).
Proof.
  cbv zeta.
  apply (getUserShell_honours_SHELL
           (mkWorld "linux" {[ "SHELL" := "/usr/bin/fish" ]} (fun _ => bare) None [] [])
           "/usr/bin/fish"); [vm_compute; reflexivity | discriminate].
Defined.

(** In a world that stands still, the loop over the candidates is a search
    for the first one that passes the test. *)
Lemma first_spawning_steady env candidates : forall w,
  (forall n, oracle w n = env) ->
  fst (first_spawning (fun shell => spawnSync "test" ["-x"; shell]) candidates w) =
    Val (List.find (executable env) candidates).
Proof.
  induction candidates as [| c rest IH]; intros w Hs; [reflexivity |].
  cbn [first_spawning List.find]. unfold probe_ok, executable, exited_zero.
  unfold_m. cbn. unfold cur. rewrite Hs.
  destruct (spawn env "test" ["-x"; c]) as [[st out] | e]; cbn.
  - destruct (status_is_zero st); cbn; [reflexivity |]. now apply IH.
  - now apply IH.
Qed.

(** X14. The order of preference on a Unix-like platform.  With [SHELL]
    unset or empty, the platform type already known and the operating
    system standing still during the call, [getUserShell] returns the shell
    [os.userInfo()] reports if it reports a non-empty one; otherwise the
    first path of the preference list that [test -x] accepts, the list
    beginning with [/bin/bash] under WSL2 and with [/bin/zsh] elsewhere;
    otherwise [/bin/sh]. *)
Theorem getUserShell_unix_preference (w : World) (env : Env) (b : bool) :
  (forall n, oracle w n = env) ->
  _isWSL2 w = Some b ->
  Js.truthy_opt (env_vars w !! "SHELL") = false ->
  is_unix_like (platform w) = true ->
  fst (getUserShell w) =
    Val match shell_from_userInfo (user_shell env) with
        | Some sh => sh
        | None =>
            match List.find (executable env)
                    (commonShells_for (platformType_of b (platform w))) with
            | Some sh => sh
            | None => "/bin/sh"
            end
        end.
Proof.
  intros Hs Hc Hsh Hu. unfold getUserShell. unfold bind at 1, process_env at 1.
  cbn. rewrite Hsh. unfold getUserShell_default. unfold bind at 1.
  rewrite (getPlatformType_cached _ b) by exact Hc. cbn [platform record_event].
  destruct (unix_like_not_win32 _ b Hu) as [-> ->].
  unfold getUserShell_unix, shell_from_userInfo, commonShells_for.
  unfold bind at 1, try_catch at 1, bind at 1, os_userInfo_shell, bind, observe, lift, ret.
  cbn. unfold cur. rewrite Hs.
  pose proof (fun cs w' H => first_spawning_steady env cs w' H) as Hf.
  destruct (user_shell env) as [[sh |] | e]; cbn.
  - destruct (Js.truthy sh); cbn; [reflexivity |].
    match goal with |- context [first_spawning ?p ?cs ?w'] =>
      specialize (Hf cs w' Hs); destruct (first_spawning p cs w') as [r w2] end.
    cbn in Hf. subst r. now destruct (List.find _ _).
  - match goal with |- context [first_spawning ?p ?cs ?w'] =>
      specialize (Hf cs w' Hs); destruct (first_spawning p cs w') as [r w2] end.
    cbn in Hf. subst r. now destruct (List.find _ _).
  - match goal with |- context [first_spawning ?p ?cs ?w'] =>
      specialize (Hf cs w' Hs); destruct (first_spawning p cs w') as [r w2] end.
    cbn in Hf. subst r. now destruct (List.find _ _).
Qed.

Lemma getUserShell_unix_preference_witness :
  fst (getUserShell (linux_with_zsh_and_bash true)) = Val "/bin/bash" /\
  fst (getUserShell (linux_with_zsh_and_bash false)) = Val "/bin/zsh".
Proof.
  split.
  - generalize (getUserShell_unix_preference (linux_with_zsh_and_bash true)
                  zsh_and_bash true (fun _ => eq_refl) eq_refl eq_refl eq_refl).
    vm_compute. exact (fun H => H).
  - generalize (getUserShell_unix_preference (linux_with_zsh_and_bash false)
                  zsh_and_bash false (fun _ => eq_refl) eq_refl eq_refl eq_refl).
    vm_compute. exact (fun H => H).
Defined.

(** ** More on resolving a command *)

Lemma sober_event e w : sober w -> sober (record_event e w).
Proof. now intros H. Qed.

Lemma sober_log l a w : sober w -> sober (record_log l a w).
Proof. now intros H. Qed.

Lemma keeps_found_in_path (I : World -> Prop) whichCommand cmdName :
  (forall e w, I w -> I (record_event e w)) ->
  (forall l a w, I w -> I (record_log l a w)) ->
  keeps I (found_in_path whichCommand cmdName).
Proof.
  intros He Hl. unfold found_in_path.
  apply keeps_try_catch.
  - apply keeps_bind; [now apply keeps_spawnSync |]. intros result.
    destruct (stdout result); [| now apply keeps_ret].
    destruct (_ && _); [| now apply keeps_ret].
    apply keeps_bind; [now apply keeps_logger | intros; now apply keeps_ret].
  - intros e. apply keeps_bind; [now apply keeps_logger | intros; now apply keeps_ret].
Qed.

(** When the lookup resolves the head, that is the whole story. *)
Lemma resolveCommand_found cmdName cmdArgs w :
  resolvable (spawn (cur w) (whichCommand_of (platform w)) [cmdName]) = true ->
  fst (resolveCommand (cmdName :: cmdArgs) w) = Val (mkPlan cmdName cmdArgs false) /\
  trace (snd (resolveCommand (cmdName :: cmdArgs) w)) =
    EvSpawn (whichCommand_of (platform w)) [cmdName] :: trace w /\
  _isWSL2 (snd (resolveCommand (cmdName :: cmdArgs) w)) = _isWSL2 w.
Proof.
  unfold resolveCommand, found_in_path, resolvable, whichCommand_of. unfold_m. cbn.
  destruct (spawn (cur w) _ [cmdName]) as [[st out] | e]; cbn; [| discriminate].
  destruct out as [out |]; cbn; [| discriminate].
  destruct (status_is_zero st && Js.truthy out && Js.truthy (Js.trim out)); cbn;
    [auto | discriminate].
Qed.

(** When it does not, the plan is the one built from the platform type and
    the shell that discovery returns in the world the lookup leaves
    behind. *)
Lemma resolveCommand_routed cmdName cmdArgs w :
  resolvable (spawn (cur w) (whichCommand_of (platform w)) [cmdName]) = false ->
  exists userShell b,
    fst (getUserShell (after_lookup cmdName w)) = Val userShell /\
    userShell <> EmptyString /\
    (sober w -> b = false) /\
    fst (resolveCommand (cmdName :: cmdArgs) w) =
      Val (shell_plan (platformType_of b (platform w)) userShell cmdName cmdArgs).
Proof.
  intros Hl.
  destruct (resolveCommand_through_shell cmdName cmdArgs w Hl)
    as (userShell & b & Hs & _ & Hc & Hplan).
  exists userShell, b. split; [exact Hs |].
  split; [exact (getUserShell_nonempty _ userShell Hs) |].
  split; [| exact Hplan].
  intros Hsober.
  assert (Hk : sober (after_lookup cmdName w)).
  { unfold after_lookup. apply sober_log.
    now apply (keeps_found_in_path sober _ _ sober_event sober_log). }
  assert (Hk2 : sober (snd (getUserShell (after_lookup cmdName w)))).
  { revert Hk. apply keeps_getUserShell;
      auto using sober_event, sober_log, sober_keeps_isWSL2. }
  assert (Hk3 : sober (snd (getPlatformType (snd (getUserShell (after_lookup cmdName w)))))).
  { revert Hk2. apply keeps_getPlatformType; auto using sober_keeps_isWSL2. }
  destruct Hk3 as [_ Hflag]. rewrite Hc in Hflag.
  destruct b; [now contradiction Hflag | reflexivity].
Qed.

(** X15. The fast path.  For any command vector whose head [which] (or
    [where] on Windows) resolves, [resolveCommand] returns the direct plan
    made of the head and the tail, having spawned the lookup and nothing
    else: no shell is discovered and the platform is not detected. *)
Theorem resolveCommand_direct (cmdName : string) (cmdArgs : list string) (w : World) :
  resolvable (spawn (cur w) (whichCommand_of (platform w)) [cmdName]) = true ->
  fst (resolveCommand (cmdName :: cmdArgs) w) = Val (mkPlan cmdName cmdArgs false) /\
  trace (snd (resolveCommand (cmdName :: cmdArgs) w)) =
    EvSpawn (whichCommand_of (platform w)) [cmdName] :: trace w /\
  _isWSL2 (snd (resolveCommand (cmdName :: cmdArgs) w)) = _isWSL2 w.
Proof. apply resolveCommand_found. Qed.

Lemma resolveCommand_direct_witness :
  fst (resolveCommand ["ls"; "-la"] everything_on_path) = Val (mkPlan "ls" ["-la"] false) /\
  trace (snd (resolveCommand ["ls"; "-la"] everything_on_path)) = [EvSpawn "which" ["ls"]] /\
  _isWSL2 (snd (resolveCommand ["ls"; "-la"] everything_on_path)) = None.
Proof.
  apply (resolveCommand_direct "ls" ["-la"] everything_on_path). reflexivity.
Defined.

(** X16. On a Unix-like platform, a command whose head the lookup does not
    resolve is handed to the user's shell, which is the answer (never empty)
    that [getUserShell] gives in the world the failed lookup leaves behind.
    The shell receives the command as one string, the words joined by
    single spaces, after [-c]; [-i] comes first exactly when
    [isInteractiveShellCommand] holds of the command. *)
Theorem resolveCommand_unix_shell (cmdName : string) (cmdArgs : list string) (w : World) :
  resolvable (spawn (cur w) (whichCommand_of (platform w)) [cmdName]) = false ->
  is_unix_like (platform w) = true ->
  exists userShell,
    fst (getUserShell (after_lookup cmdName w)) = Val userShell /\
    userShell <> EmptyString /\
    fst (resolveCommand (cmdName :: cmdArgs) w) =
      Val (mkPlan userShell
             ((if isInteractiveShellCommand cmdName cmdArgs then ["-i"] else []) ++
              ["-c"; Js.join " " (cmdName :: cmdArgs)])
             true).
Proof.
  intros Hl Hu.
  destruct (resolveCommand_routed cmdName cmdArgs w Hl)
    as (userShell & b & Hs & Hne & _ & ->).
  exists userShell. split; [exact Hs |]. split; [exact Hne |].
  unfold shell_plan. cbv zeta.
  destruct (unix_like_not_win32 _ b Hu) as [-> ->].
  now destruct (isInteractiveShellCommand cmdName cmdArgs).
Qed.

Lemma resolveCommand_unix_shell_witness :
  fst (getUserShell (after_lookup "ll" (linux_with_zsh_and_bash false))) = Val "/bin/zsh" /\
  fst (resolveCommand ["ll"; "-h"] (linux_with_zsh_and_bash false)) =
    Val (mkPlan "/bin/zsh" ["-c"; "ll -h"] true) /\
  fst (resolveCommand ["zsh"; "-l"] (linux_with_zsh_and_bash false)) =
    Val (mkPlan "/bin/zsh" ["-i"; "-c"; "zsh -l"] true).
Proof.
  split; [reflexivity |]. split.
  - destruct (resolveCommand_unix_shell "ll" ["-h"] (linux_with_zsh_and_bash false)
                eq_refl eq_refl) as (userShell & Hs & _ & ->).
    vm_compute in Hs. injection Hs as <-. reflexivity.
  - destruct (resolveCommand_unix_shell "zsh" ["-l"] (linux_with_zsh_and_bash false)
                eq_refl eq_refl) as (userShell & Hs & _ & ->).
    vm_compute in Hs. injection Hs as <-. reflexivity.
Defined.

(** X17. The shape of every plan.  For any non-empty command vector,
    [resolveCommand] returns either the direct plan (head, tail, no shell)
    or a plan through a shell whose name is not empty and whose arguments
    are one of the flag sequences [-c], [-i -c], [-NoLogo -Command], [/C]
    followed by a single argument: the words of the command joined by
    single spaces. *)
Theorem resolveCommand_plan_shape (cmdName : string) (cmdArgs : list string) (w : World) :
  exists plan,
    fst (resolveCommand (cmdName :: cmdArgs) w) = Val plan /\
    (plan = mkPlan cmdName cmdArgs false \/
     (useShell plan = true /\ command plan <> EmptyString /\
      exists flags, In flags shell_flags /\
                    args plan = flags ++ [Js.join " " (cmdName :: cmdArgs)])).
Proof.
  destruct (resolvable (spawn (cur w) (whichCommand_of (platform w)) [cmdName])) eqn:Hl.
  - destruct (resolveCommand_found cmdName cmdArgs w Hl) as [-> _].
    eexists. split; [reflexivity | now left].
  - destruct (resolveCommand_routed cmdName cmdArgs w Hl)
      as (userShell & b & _ & Hne & _ & ->).
    eexists. split; [reflexivity |]. unfold shell_plan, shell_flags. cbv zeta.
    destruct (String.eqb _ "win32").
    + destruct (Js.includes userShell "bash").
      * destruct (negb _); right; repeat split; auto;
          [exists ["-c"] | exists ["-i"; "-c"]]; cbn; auto.
      * destruct (_ || _); right; repeat split; auto;
          [exists ["-NoLogo"; "-Command"] | exists ["/C"]]; cbn; auto 6.
    + destruct (is_unix_like _); [| now left].
      destruct (negb _); right; repeat split; auto;
        [exists ["-c"] | exists ["-i"; "-c"]]; cbn; auto.
Qed.

(** X18. On a platform the class does not recognise (not Linux, macOS or
    Windows, and not marked as WSL2), [resolveCommand] falls back to the
    direct plan whether or not the lookup resolves the head. *)
Theorem resolveCommand_unknown_platform (cmdName : string) (cmdArgs : list string)
    (w : World) :
  is_unix_like (platform w) = false -> platform w <> "win32" ->
  _isWSL2 w <> Some true ->
  fst (resolveCommand (cmdName :: cmdArgs) w) = Val (mkPlan cmdName cmdArgs false).
Proof.
  intros Hu Hw Hc.
  destruct (resolvable (spawn (cur w) (whichCommand_of (platform w)) [cmdName])) eqn:Hl.
  - now destruct (resolveCommand_found cmdName cmdArgs w Hl) as [-> _].
  - destruct (resolveCommand_routed cmdName cmdArgs w Hl)
      as (userShell & b & _ & _ & Hb & ->).
    assert (Hs : sober w).
    { split; [| exact Hc]. intros E. rewrite E in Hu. discriminate Hu. }
    rewrite (Hb Hs). unfold shell_plan, platformType_of. cbv zeta.
    apply String.eqb_neq in Hw. now rewrite Hw, Hu.
Qed.

Lemma resolveCommand_unknown_platform_witness :
  fst (resolveCommand ["ll"; "-h"] bare_freebsd) = Val (mkPlan "ll" ["-h"] false).
Proof.
  apply (resolveCommand_unknown_platform "ll" ["-h"] bare_freebsd);
    [reflexivity | discriminate | discriminate].
Defined.

(** ** The log is write-only *)

Lemma same_but_log_refl w : same_but_log w w.
Proof. now repeat split. Qed.

Lemma same_but_log_cur w1 w2 : same_but_log w1 w2 -> cur w1 = cur w2.
Proof. intros (_ & _ & Ho & _ & Ht). unfold cur. now rewrite Ho, Ht. Qed.

Section Blind.
Context {A B : Type}.

Lemma blind_ret (a : A) : log_blind (ret a).
Proof. intros w1 w2 H. now split. Qed.

Lemma blind_throw (e : JsError) : log_blind (@throw A e).
Proof. intros w1 w2 H. now split. Qed.

Lemma blind_lift (r : Result A) : log_blind (lift r).
Proof. intros w1 w2 H. now split. Qed.

Lemma blind_bind (m : M A) (k : A -> M B) :
  log_blind m -> (forall a, log_blind (k a)) -> log_blind (bind m k).
Proof.
  intros Hm Hk w1 w2 H. unfold bind. destruct (Hm w1 w2 H) as [Hr Hw].
  destruct (m w1) as [r1 w1'], (m w2) as [r2 w2']. cbn in Hr, Hw. subst r2.
  destruct r1 as [a | e]; [now apply Hk | now split].
Qed.

Lemma blind_try_catch (body : M A) handler :
  log_blind body -> (forall e, log_blind (handler e)) -> log_blind (try_catch body handler).
Proof.
  intros Hb Hh w1 w2 H. unfold try_catch. destruct (Hb w1 w2 H) as [Hr Hw].
  destruct (body w1) as [r1 w1'], (body w2) as [r2 w2']. cbn in Hr, Hw. subst r2.
  destruct r1 as [a | e]; [now split | now apply Hh].
Qed.
End Blind.

Lemma blind_observe e : log_blind (observe e).
Proof.
  intros w1 w2 H. unfold observe. cbn. rewrite (same_but_log_cur _ _ H).
  split; [reflexivity |]. destruct H as (Hp & He & Ho & Hc & Ht).
  repeat split; cbn; congruence.
Qed.

Lemma blind_logger l a : log_blind (logger l a).
Proof. intros w1 w2 H. split; [reflexivity | exact H]. Qed.

Lemma blind_get_platform : log_blind get_platform.
Proof. intros w1 w2 H. cbn. split; [| exact H]. destruct H as [-> _]. reflexivity. Qed.

Lemma blind_get_isWSL2 : log_blind get_isWSL2.
Proof.
  intros w1 w2 H. cbn. split; [| exact H]. destruct H as (_ & _ & _ & -> & _).
  reflexivity.
Qed.

Lemma blind_put_isWSL2 b : log_blind (put_isWSL2 b).
Proof.
  intros w1 w2 (Hp & He & Ho & Hc & Ht). split; [reflexivity |].
  repeat split; cbn; congruence.
Qed.

Lemma blind_process_env name : log_blind (process_env name).
Proof.
  intros w1 w2 (Hp & He & Ho & Hc & Ht). unfold process_env. cbn. rewrite He.
  split; [reflexivity |]. repeat split; cbn; congruence.
Qed.

Create HintDb blind.
#[local] Hint Resolve blind_ret blind_throw blind_lift blind_observe blind_logger
  blind_get_platform blind_get_isWSL2 blind_put_isWSL2 blind_process_env : blind.

Ltac grope :=
  repeat first
    [ progress intros
    | solve [auto with blind]
    | apply blind_bind
    | apply blind_try_catch
    | match goal with
      | |- log_blind (if ?c then _ else _) => destruct c
      | |- log_blind (match ?x with _ => _ end) => destruct x
      end ].

Lemma blind_some_env names : log_blind (some_env names).
Proof. induction names as [| n rest IH]; cbn; grope. Qed.

#[local] Hint Resolve blind_some_env : blind.

Lemma blind_isProcessRunning pid : log_blind (isProcessRunning pid).
Proof.
  unfold isProcessRunning, isProcessRunningWindows, isProcessRunningUnix,
    getPlatformType, isWSL2, check_proc_version, existsSync, readFileSync,
    spawnSync, process_kill.
  grope.
Qed.

Lemma blind_Date_now : log_blind Date_now.
Proof. unfold Date_now. grope. Qed.

Lemma blind_sleep ms : log_blind (sleep ms).
Proof. unfold sleep. grope. Qed.

Lemma launcher_wait_loop_turn fuel pid timeoutMs startTime w :
  WSL2Launcher.wait_loop (S fuel) pid timeoutMs startTime w =
    if (now (cur w) - startTime <? timeoutMs)%Z then
      match isProcessRunning pid (record_event EvNow w) with
      | (Val true, w2) =>
          WSL2Launcher.wait_loop fuel pid timeoutMs startTime
            (record_event (EvSleep checkInterval) w2)
      | (Val false, w2) => (Val (Some true), w2)
      | (Throw e, w2) => (Throw e, w2)
      end
    else (Val (Some false), record_event EvNow w).
Proof.
  cbn [WSL2Launcher.wait_loop]. unfold_m. cbn.
  destruct (now (cur w) - startTime <? timeoutMs)%Z; [| reflexivity].
  destruct (isProcessRunning pid (record_event EvNow w)) as [[[|] | e] w2];
    reflexivity.
Qed.

(** The two loops go through the same motions from worlds that differ only
    in their logs; the loop of [ProcessUtils] reads the clock once more when,
    and only when, the process was seen gone. *)
Lemma wait_loops_agree pid timeoutMs startTime : forall fuel w1 w2,
  same_but_log w1 w2 ->
  fst (WSL2Launcher.wait_loop fuel pid timeoutMs startTime w1) =
    fst (wait_loop fuel pid timeoutMs startTime w2) /\
  trace (snd (wait_loop fuel pid timeoutMs startTime w2)) =
    (if seen_gone (fst (WSL2Launcher.wait_loop fuel pid timeoutMs startTime w1))
     then [EvNow] else []) ++
    trace (snd (WSL2Launcher.wait_loop fuel pid timeoutMs startTime w1)).
Proof.
  induction fuel as [| fuel IH]; intros w1 w2 H.
  - cbn. destruct H as (_ & _ & _ & _ & ->). auto.
  - rewrite wait_loop_turn, launcher_wait_loop_turn.
    rewrite (same_but_log_cur _ _ H).
    assert (H1 : same_but_log (record_event EvNow w1) (record_event EvNow w2)).
    { destruct H as (Hp & He & Ho & Hc & Ht). repeat split; cbn; congruence. }
    destruct (now (cur w2) - startTime <? timeoutMs)%Z.
    + destruct (blind_isProcessRunning pid _ _ H1) as [Hr Hw].
      destruct (isProcessRunning pid (record_event EvNow w1)) as [r1 w1'].
      destruct (isProcessRunning pid (record_event EvNow w2)) as [r2 w2'].
      cbn in Hr, Hw. subst r2. destruct r1 as [[|] | e]; cbn.
      * apply IH. destruct Hw as (Hp & He & Ho & Hc & Ht).
        repeat split; cbn; congruence.
      * destruct Hw as (_ & _ & _ & _ & ->). auto.
      * destruct Hw as (_ & _ & _ & _ & ->). auto.
    + cbn. destruct H as (_ & _ & _ & _ & ->). auto.
Qed.

(** X19. The launcher's private copy of the wait loop and
    [ProcessUtils.waitForProcessExit] return the same verdict from the same
    world, after the same interactions, except that [ProcessUtils] reads the
    clock once more (to log the elapsed time) when, and only when, the
    verdict is that the process was seen gone. *)
Theorem launcher_wait_agrees (fuel : nat) (pid timeoutMs : Z) (w : World) :
  fst (WSL2Launcher.waitForProcessExit fuel pid timeoutMs w) =
    fst (waitForProcessExit fuel pid timeoutMs w) /\
  trace (snd (waitForProcessExit fuel pid timeoutMs w)) =
    match fst (WSL2Launcher.waitForProcessExit fuel pid timeoutMs w) with
    | Val (Some true) =>
        EvNow :: trace (snd (WSL2Launcher.waitForProcessExit fuel pid timeoutMs w))
    | _ => trace (snd (WSL2Launcher.waitForProcessExit fuel pid timeoutMs w))
    end.
Proof.
  rewrite waitForProcessExit_start. unfold WSL2Launcher.waitForProcessExit.
  unfold bind at 1, Date_now at 1, bind at 1, observe at 1, ret at 1. cbn.
  match goal with
  | |- context [WSL2Launcher.wait_loop fuel pid timeoutMs ?t ?w1] =>
      destruct (wait_loops_agree pid timeoutMs t fuel w1
                  (record_log LvDebug
                     [Plain ("waiting for process " +:+ Js.number_toString pid +:+ " to exit (timeout: " +:+ Js.number_toString timeoutMs +:+ "ms)")] w1))
        as [Hv Ht]; [now repeat split |]
  end.
  split; [exact Hv |]. rewrite Ht. unfold seen_gone.
  now destruct (fst (WSL2Launcher.wait_loop _ _ _ _ _)) as [[[|] |] | e].
Qed.

(** ** The launcher: command-line arguments *)

Ltac unfold_l :=
  unfold WSL2Launcher.lbind, WSL2Launcher.ltry, WSL2Launcher.lret, WSL2Launcher.exit,
    WSL2Launcher.say, WSL2Launcher.call, WSL2Launcher.unlinkSync, WSL2Launcher.die in *.

Lemma parse_loop_ends : forall n args config s,
  (length args <= n)%nat -> port_ok config ->
  loop_ends port_ok s (WSL2Launcher.parse_loop args config s).
Proof.
  induction n as [| n IH]; intros [| arg rest] config s Hn Hc;
    try (now split); cbn in Hn; try lia.
  assert (Hrest : forall c, port_ok c ->
            loop_ends port_ok s (WSL2Launcher.parse_loop rest c s))
    by (intros; apply IH; [lia | assumption]).
  assert (Hrest' : forall v rest', rest = v :: rest' -> forall c, port_ok c ->
            loop_ends port_ok s (WSL2Launcher.parse_loop rest' c s))
    by (intros v rest' -> c Hc'; apply IH; [cbn in Hn; lia | assumption]).
  cbn [WSL2Launcher.parse_loop].
  repeat match goal with
  | |- context [if String.eqb arg ?x then _ else _] => destruct (String.eqb arg x)
  | |- context [if ?a || ?b then _ else _] => destruct (a || b) eqn:?
  | |- context [if String.prefix ?a ?b then _ else _] => destruct (String.prefix a b)
  end;
  try (destruct rest as [| value rest']; [now right |]);
  try (now (apply Hrest; assumption));
  try (now (apply (Hrest' _ _ eq_refl); assumption));
  try (now (cbn; auto)).
  destruct (WSL2Launcher.parseInt10 value) as [port |]; [| now right].
  destruct ((port <? 1)%Z || (port >? 65535)%Z) eqn:E; [now right |].
  apply (Hrest' _ _ eq_refl). intros p Hp. cbn in Hp. inversion Hp; subst.
  apply orb_false_iff in E. lia.
Qed.

(** X20. [parseArgs] never throws.  Either it returns, having said nothing,
    a configuration whose port (if given) lies between 1 and 65535 and in
    which a non-empty user name and a non-empty password come together or
    not at all; or it ends the process with code 0 or 1. *)
Theorem parseArgs_validates (argv : list string) (s : WSL2Launcher.State) :
  loop_ends valid_config s (WSL2Launcher.parseArgs argv s).
Proof.
  unfold WSL2Launcher.parseArgs. cbv zeta. unfold WSL2Launcher.lbind.
  pose proof (parse_loop_ends _ (skipn 2 argv) WSL2Launcher.empty_config s
                (le_n _) ltac:(intros p Hp; discriminate Hp)) as H.
  unfold loop_ends in *.
  destruct (WSL2Launcher.parse_loop _ _ s) as [[c | e | code] s1]; cbn in H |- *;
    [| contradiction | exact H].
  destruct H as [Hport ->]. unfold valid_config, port_ok in *.
  destruct (Js.truthy_opt (WSL2Launcher.cfg_username c)) eqn:Hu,
           (Js.truthy_opt (WSL2Launcher.cfg_password c)) eqn:Hp;
    cbn; rewrite ?Hu, ?Hp; auto.
Qed.

(** ** The launcher: the PID file *)

Lemma isProcessRunning_true_positive pid w :
  fst (isProcessRunning pid w) = Val true -> 0 < pid.
Proof.
  intros H. destruct (Z_le_gt_dec pid 0) as [Hle | Hgt]; [| lia].
  unfold isProcessRunning in H. rewrite (bad_pid_nonpositive _ Hle) in H.
  discriminate H.
Qed.

Lemma isProcessRunning_number_total pid : total (WSL2Launcher.isProcessRunning_number pid).
Proof.
  destruct pid as [p |]; cbn; [apply isProcessRunning_total | apply total_ret].
Qed.

(** The ways [isServerRunning] can go. *)
Lemma isServerRunning_cases pidFile s :
  exists st, fst (WSL2Launcher.isServerRunning pidFile s) = WSL2Launcher.Returned st /\
    (st = WSL2Launcher.mkStatus false None \/
     exists p, st = WSL2Launcher.mkStatus true (Some p) /\ 0 < p /\
               WSL2Launcher.unlinked (snd (WSL2Launcher.isServerRunning pidFile s)) =
                 WSL2Launcher.unlinked s /\
               WSL2Launcher.said (snd (WSL2Launcher.isServerRunning pidFile s)) =
                 WSL2Launcher.said s).
Proof.
  unfold WSL2Launcher.isServerRunning. unfold_l. unfold existsSync, readFileSync.
  unfold_m. cbn.
  destruct (fs_exists (cur (WSL2Launcher.core s)) pidFile); cbn; [| eauto].
  destruct (fs_read _ pidFile) as [content | e]; cbn; [| eauto].
  match goal with |- context [WSL2Launcher.isProcessRunning_number ?n ?w] =>
    pose proof (isProcessRunning_number_total n w) as [alive Ha];
    destruct (WSL2Launcher.isProcessRunning_number n w) as [r w2] eqn:E
  end.
  cbn in Ha. subst r. destruct alive; cbn.
  - destruct (WSL2Launcher.parseInt10 (Js.trim content)) as [p |] eqn:Hp;
      cbn in E; [| discriminate E].
    eexists. split; [reflexivity |]. right. exists p. repeat split.
    pose proof (f_equal fst E) as H. cbn in H.
    exact (isProcessRunning_true_positive _ _ H).
  - destruct (WSL2Launcher.unlink_fails s _ pidFile); cbn; eauto.
Qed.

(** White space beyond ASCII is white space to [trim] and [parseInt]: a
    PID file that starts with a byte order mark (EF BB BF) and ends with a
    no-break space (C2 A0) and a line feed still names its process. *)
Lemma isServerRunning_reads_past_white_space :
  let content :=
    String (ascii_of_nat 239) (String (ascii_of_nat 187) (String (ascii_of_nat 191)
      ("4242" +:+ String (ascii_of_nat 194) (String (ascii_of_nat 160)
         (String (ascii_of_nat 10) EmptyString))))) in
  Js.trim content = "4242" /\
  fst (WSL2Launcher.isServerRunning pidFile (with_pid_file content)) =
    WSL2Launcher.Returned (WSL2Launcher.mkStatus true (Some 4242)).
Proof. split; reflexivity. Qed.

(** [parseInt] yields doubles: beyond 2^53 the numeral is rounded to the
    nearest of them, a tie going to the even significand. *)
Lemma parseInt10_rounds :
  WSL2Launcher.parseInt10 "9007199254740992" = Some 9007199254740992 /\
  WSL2Launcher.parseInt10 "9007199254740993" = Some 9007199254740992 /\
  WSL2Launcher.parseInt10 "9007199254740995" = Some 9007199254740996 /\
  WSL2Launcher.parseInt10 "-9007199254740993" = Some (-9007199254740992) /\
  WSL2Launcher.parseInt10 "  42abc" = Some 42 /\
  WSL2Launcher.parseInt10 "abc" = None.
Proof. repeat split. Qed.

(** X21. [isServerRunning] never throws and never ends the process.  It
    reports a running server only when the PID file exists and can be read,
    and then with the very number that [parseInt] makes of the trimmed
    content of the file: a positive number, on which the liveness check has
    answered [true].  In that case it has removed nothing and said nothing.
    When it reports no server it reports no pid. *)
Theorem isServerRunning_sound (pidFile : string) (s : WSL2Launcher.State) :
  let w := WSL2Launcher.core s in
  let w2 := record_event (EvReadFile pidFile) (record_event (EvExists pidFile) w) in
  exists st,
    fst (WSL2Launcher.isServerRunning pidFile s) = WSL2Launcher.Returned st /\
    (st = WSL2Launcher.mkStatus false None \/
     exists content p,
       fs_exists (cur w) pidFile = true /\
       fs_read (cur (record_event (EvExists pidFile) w)) pidFile = Val content /\
       WSL2Launcher.parseInt10 (Js.trim content) = Some p /\
       fst (isProcessRunning p w2) = Val true /\
       st = WSL2Launcher.mkStatus true (Some p) /\ 0 < p /\
       WSL2Launcher.unlinked (snd (WSL2Launcher.isServerRunning pidFile s)) =
         WSL2Launcher.unlinked s /\
       WSL2Launcher.said (snd (WSL2Launcher.isServerRunning pidFile s)) =
         WSL2Launcher.said s).
Proof.
  cbv zeta.
  unfold WSL2Launcher.isServerRunning. unfold_l. unfold existsSync, readFileSync.
  unfold_m. cbn.
  destruct (fs_exists (cur (WSL2Launcher.core s)) pidFile) eqn:He; cbn; [| eauto].
  destruct (fs_read _ pidFile) as [content | e] eqn:Hr; cbn; [| eauto].
  match goal with |- context [WSL2Launcher.isProcessRunning_number ?n ?w] =>
    pose proof (isProcessRunning_number_total n w) as [alive Ha];
    destruct (WSL2Launcher.isProcessRunning_number n w) as [r w3] eqn:E
  end.
  cbn in Ha. subst r. destruct alive; cbn.
  - destruct (WSL2Launcher.parseInt10 (Js.trim content)) as [p |] eqn:Hp;
      cbn in E; [| discriminate E].
    pose proof (f_equal fst E) as H. cbn in H.
    eexists. split; [reflexivity |]. right. exists content, p.
    split; [reflexivity |]. split; [reflexivity |]. split; [exact Hp |].
    split; [exact H |]. split; [reflexivity |].
    split; [exact (isProcessRunning_true_positive _ _ H) |]. now split.
  - destruct (WSL2Launcher.unlink_fails s _ pidFile); cbn; eauto.
Qed.

(** X22. A PID file that holds no number, or a number that is not
    positive, is stale without further ado: [isServerRunning] reports no
    server after the existence check and the read alone (no process is
    probed), and removes the file when [unlinkSync] lets it. *)
Theorem isServerRunning_garbage (pidFile content : string) (s : WSL2Launcher.State) :
  let w := WSL2Launcher.core s in
  let s' := snd (WSL2Launcher.isServerRunning pidFile s) in
  fs_exists (cur w) pidFile = true ->
  fs_read (cur (record_event (EvExists pidFile) w)) pidFile = Val content ->
  (forall p, WSL2Launcher.parseInt10 (Js.trim content) = Some p -> p <= 0) ->
  fst (WSL2Launcher.isServerRunning pidFile s) =
    WSL2Launcher.Returned (WSL2Launcher.mkStatus false None) /\
  trace (WSL2Launcher.core s') = EvReadFile pidFile :: EvExists pidFile :: trace w /\
  (WSL2Launcher.unlink_fails s (2 + length (trace w)) pidFile = None ->
   WSL2Launcher.unlinked s' = pidFile :: WSL2Launcher.unlinked s).
Proof.
  cbv zeta. intros He Hr Hp.
  unfold WSL2Launcher.isServerRunning. unfold_l. unfold existsSync, readFileSync.
  unfold_m. cbn. rewrite He. cbn. unfold cur in Hr |- *. cbn in Hr |- *.
  rewrite Hr. cbn.
  destruct (WSL2Launcher.parseInt10 (Js.trim content)) as [p |]; cbn.
  - unfold isProcessRunning. rewrite (bad_pid_nonpositive p (Hp p eq_refl)). cbn.
    destruct (WSL2Launcher.unlink_fails s _ pidFile); cbn; repeat split; auto;
      discriminate.
  - destruct (WSL2Launcher.unlink_fails s _ pidFile); cbn; repeat split; auto;
      discriminate.
Qed.

Lemma isServerRunning_garbage_witness :
  fst (WSL2Launcher.isServerRunning pidFile (with_pid_file "not a pid")) =
    WSL2Launcher.Returned (WSL2Launcher.mkStatus false None) /\
  trace (WSL2Launcher.core (snd (WSL2Launcher.isServerRunning pidFile (with_pid_file "not a pid")))) =
    [EvReadFile pidFile; EvExists pidFile] /\
  WSL2Launcher.unlinked (snd (WSL2Launcher.isServerRunning pidFile (with_pid_file "not a pid"))) =
    [pidFile].
Proof.
  destruct (isServerRunning_garbage pidFile "not a pid" (with_pid_file "not a pid"))
    as (H1 & H2 & H3); [reflexivity | reflexivity | intros p H; discriminate H |].
  split; [exact H1 | split; [exact H2 | apply H3; reflexivity]].
Defined.

(** X23. A PID file whose process is gone is cleaned up.  When the file is
    there and can be read, and the liveness check on the pid it holds
    answers [false], [isServerRunning] reports no server and removes the
    file; if the removal throws, the error is logged at debug level and
    swallowed, and the answer is still "no server". *)
Theorem isServerRunning_stale (pidFile content : string) (s : WSL2Launcher.State) :
  let w := WSL2Launcher.core s in
  let w2 := record_event (EvReadFile pidFile) (record_event (EvExists pidFile) w) in
  let probe := WSL2Launcher.isProcessRunning_number
                 (WSL2Launcher.parseInt10 (Js.trim content)) w2 in
  let s' := snd (WSL2Launcher.isServerRunning pidFile s) in
  fs_exists (cur w) pidFile = true ->
  fs_read (cur (record_event (EvExists pidFile) w)) pidFile = Val content ->
  fst probe = Val false ->
  fst (WSL2Launcher.isServerRunning pidFile s) =
    WSL2Launcher.Returned (WSL2Launcher.mkStatus false None) /\
  match WSL2Launcher.unlink_fails s (length (trace (snd probe))) pidFile with
  | None => WSL2Launcher.unlinked s' = pidFile :: WSL2Launcher.unlinked s
  | Some e =>
      WSL2Launcher.unlinked s' = WSL2Launcher.unlinked s /\
      WSL2Launcher.said s' =
        WSL2Launcher.ToLogger WSL2Launcher.LDebug
          [Plain "Error checking server status:"; Caught e] :: WSL2Launcher.said s
  end.
Proof.
  cbv zeta. intros He Hr Hd.
  unfold WSL2Launcher.isServerRunning. unfold_l. unfold existsSync, readFileSync.
  unfold_m. cbn. rewrite He. cbn. unfold cur in Hr |- *. cbn in Hr |- *.
  rewrite Hr. cbn.
  destruct (WSL2Launcher.isProcessRunning_number _ _) as [r w3]. cbn in Hd |- *.
  subst r. cbn.
  destruct (WSL2Launcher.unlink_fails s _ pidFile); cbn; auto.
Qed.

Lemma isServerRunning_stale_witness :
  fst (WSL2Launcher.isServerRunning pidFile (with_pid_file "77")) =
    WSL2Launcher.Returned (WSL2Launcher.mkStatus false None) /\
  WSL2Launcher.unlinked (snd (WSL2Launcher.isServerRunning pidFile (with_pid_file "77"))) =
    [pidFile].
Proof.
  destruct (isServerRunning_stale pidFile "77" (with_pid_file "77"))
    as (H1 & H2); [reflexivity | reflexivity | reflexivity |].
  split; [exact H1 | exact H2].
Defined.

(** ** The launcher: stopping the server *)

(** X24. Stopping when there is no PID file: [stopServer] checks for the
    file, says "Server is not running" and returns; it sends no signal and
    removes nothing. *)
Theorem stopServer_without_pid_file (fuel : nat) (pidFile : string) (s : WSL2Launcher.State) :
  fs_exists (cur (WSL2Launcher.core s)) pidFile = false ->
  WSL2Launcher.stopServer fuel pidFile s =
    (WSL2Launcher.Returned (Some tt),
     WSL2Launcher.mkState
       (record_event (EvExists pidFile) (WSL2Launcher.core s))
       (WSL2Launcher.unlink_fails s)
       (WSL2Launcher.unlinked s)
       (WSL2Launcher.ToConsole [Styled Yellow "Server is not running"] :: WSL2Launcher.said s)).
Proof.
  intros He. unfold WSL2Launcher.stopServer, WSL2Launcher.isServerRunning.
  unfold_l. unfold existsSync. unfold_m. cbn. now rewrite He.
Qed.

Lemma stopServer_without_pid_file_witness :
  WSL2Launcher.stopServer 10 pidFile without_pid_file =
    (WSL2Launcher.Returned (Some tt),
     WSL2Launcher.mkState
       (record_event (EvExists pidFile) (WSL2Launcher.core without_pid_file))
       (WSL2Launcher.unlink_fails without_pid_file)
       (WSL2Launcher.unlinked without_pid_file)
       (WSL2Launcher.ToConsole [Styled Yellow "Server is not running"]
          :: WSL2Launcher.said without_pid_file)).
Proof.
  apply (stopServer_without_pid_file 10 pidFile without_pid_file). reflexivity.
Defined.

(** Entering the [try] of [stopServer]: the server was found, with pid [p].
    Leaves the call rewritten to what remains to be run. *)
Ltac found_server H :=
  let st := fresh "st" in let Hst := fresh "Hst" in let q := fresh "q" in
  let Hpos := fresh "Hpos" in let Hu := fresh "Hu" in let Hs := fresh "Hs" in
  let E := fresh "E" in
  match type of H with
  | fst (WSL2Launcher.isServerRunning ?f ?s) = _ =>
      destruct (isServerRunning_cases f s)
        as (st & Hst & [-> | (q & -> & Hpos & Hu & Hs)]);
      rewrite Hst in H; inversion H; subst; clear H;
      match goal with
      | |- context [WSL2Launcher.stopServer ?fuel f s] =>
          pose proof (eq_refl (WSL2Launcher.stopServer fuel f s)) as E;
          unfold WSL2Launcher.stopServer at 2 in E;
          unfold WSL2Launcher.lbind at 1 in E;
          destruct (WSL2Launcher.isServerRunning f s) as [?o ?s1];
          cbn [fst snd] in *; subst;
          cbn [negb WSL2Launcher.running WSL2Launcher.status_pid] in E;
          cbv iota in E; unfold WSL2Launcher.terminate in E;
          rewrite (proj2 (Z.eqb_neq _ 0)) in E by lia;
          rewrite E; clear E
      end
  end.

(** X25. If the server is found but [SIGTERM] cannot be delivered (the
    process has just gone, or belongs to someone else), [stopServer] logs
    "Error stopping server" with the error and ends the process with code 1:
    no wait, no [SIGKILL], and the PID file stays where it is. *)
Theorem stopServer_sigterm_fails (fuel : nat) (pidFile : string) (s : WSL2Launcher.State)
    (p : Z) (e : JsError) :
  let s1 := snd (WSL2Launcher.isServerRunning pidFile s) in
  let s' := snd (WSL2Launcher.stopServer fuel pidFile s) in
  fst (WSL2Launcher.isServerRunning pidFile s) =
    WSL2Launcher.Returned (WSL2Launcher.mkStatus true (Some p)) ->
  kill (cur (WSL2Launcher.core s1)) p SIGTERM = Some e ->
  fst (WSL2Launcher.stopServer fuel pidFile s) = WSL2Launcher.Exited 1 /\
  trace (WSL2Launcher.core s') = EvKill p SIGTERM :: trace (WSL2Launcher.core s1) /\
  WSL2Launcher.unlinked s' = WSL2Launcher.unlinked s /\
  WSL2Launcher.said s' =
    WSL2Launcher.ToLogger WSL2Launcher.LError [Plain "Error stopping server:"; Caught e]
    :: WSL2Launcher.ToConsole
         [Styled Yellow ("Stopping server (PID: " +:+ Js.number_toString p +:+ ")...")]
    :: WSL2Launcher.said s.
Proof.
  cbv zeta. intros H Hk. found_server H.
  unfold_l. unfold process_kill. unfold_m. cbn. rewrite Hk. cbn.
  rewrite Hu, Hs. auto.
Qed.

Lemma stopServer_sigterm_fails_witness :
  fst (WSL2Launcher.stopServer 3 pidFile with_foreign_server) = WSL2Launcher.Exited 1 /\
  trace (WSL2Launcher.core (snd (WSL2Launcher.stopServer 3 pidFile with_foreign_server))) =
    EvKill 4242 SIGTERM
    :: trace (WSL2Launcher.core (snd (WSL2Launcher.isServerRunning pidFile with_foreign_server))) /\
  WSL2Launcher.unlinked (snd (WSL2Launcher.stopServer 3 pidFile with_foreign_server)) =
    WSL2Launcher.unlinked with_foreign_server /\
  WSL2Launcher.said (snd (WSL2Launcher.stopServer 3 pidFile with_foreign_server)) =
    WSL2Launcher.ToLogger WSL2Launcher.LError [Plain "Error stopping server:"; Caught EPERM]
    :: WSL2Launcher.ToConsole
         [Styled Yellow ("Stopping server (PID: " +:+ Js.number_toString 4242 +:+ ")...")]
    :: WSL2Launcher.said with_foreign_server.
Proof.
  apply (stopServer_sigterm_fails 3 pidFile with_foreign_server 4242 EPERM);
    reflexivity.
Defined.

#[local] Arguments WSL2Launcher.waitForProcessExit : simpl never.

(** The tail of [stopServer], from a state whose world is [w]. *)
Ltac clean_up :=
  unfold cleaned_up; unfold_l; unfold existsSync; unfold_m; cbn;
  match goal with
  | |- context [fs_exists ?a ?b] => destruct (fs_exists a b)
  end; cbn; [| auto];
  match goal with
  | |- context [WSL2Launcher.unlink_fails ?a ?b ?c] =>
      destruct (WSL2Launcher.unlink_fails a b c)
  end; cbn; auto.

(** X26. A graceful stop.  When the server is found, [SIGTERM] is delivered
    and the wait of five seconds sees the process gone, [stopServer] sends
    nothing further (no [SIGKILL]): its one remaining interaction is the
    check for the PID file, which it removes if it is there. *)
Theorem stopServer_graceful (fuel : nat) (pidFile : string) (s : WSL2Launcher.State) (p : Z) :
  let s1 := snd (WSL2Launcher.isServerRunning pidFile s) in
  let wait := WSL2Launcher.waitForProcessExit fuel p 5000
                (record_event (EvKill p SIGTERM) (WSL2Launcher.core s1)) in
  fst (WSL2Launcher.isServerRunning pidFile s) =
    WSL2Launcher.Returned (WSL2Launcher.mkStatus true (Some p)) ->
  kill (cur (WSL2Launcher.core s1)) p SIGTERM = None ->
  fst wait = Val (Some true) ->
  cleaned_up pidFile s1 (snd wait) (WSL2Launcher.stopServer fuel pidFile s).
Proof.
  cbv zeta. intros H Hk Hw. found_server H.
  unfold WSL2Launcher.ltry, WSL2Launcher.lbind at 1, WSL2Launcher.lbind at 1,
    WSL2Launcher.say at 1.
  unfold WSL2Launcher.lbind at 1, WSL2Launcher.call at 1, process_kill.
  unfold_m. cbn. rewrite Hk. cbn.
  unfold WSL2Launcher.lbind at 1, WSL2Launcher.call at 1. cbn.
  destruct (WSL2Launcher.waitForProcessExit fuel p 5000 _) as [r w3].
  cbn in Hw |- *. subst r. cbn. clean_up.
Qed.

Lemma stopServer_graceful_witness :
  cleaned_up pidFile
    (snd (WSL2Launcher.isServerRunning pidFile with_obedient_server))
    (snd (WSL2Launcher.waitForProcessExit 3 4242 5000
            (record_event (EvKill 4242 SIGTERM)
               (WSL2Launcher.core
                  (snd (WSL2Launcher.isServerRunning pidFile with_obedient_server))))))
    (WSL2Launcher.stopServer 3 pidFile with_obedient_server).
Proof.
  apply (stopServer_graceful 3 pidFile with_obedient_server 4242); reflexivity.
Defined.

(** X27. A forced stop is best effort.  When the server is found, [SIGTERM]
    is delivered and the wait of five seconds ends with the process still
    there, [stopServer] sends [SIGKILL].  If that delivery throws, the error
    is caught and the PID file is cleaned up all the same; if it succeeds, a
    second wait of two seconds follows, and whatever it answers the PID file
    is cleaned up all the same. *)
Theorem stopServer_forced (fuel : nat) (pidFile : string) (s : WSL2Launcher.State) (p : Z) :
  let s1 := snd (WSL2Launcher.isServerRunning pidFile s) in
  let wait := WSL2Launcher.waitForProcessExit fuel p 5000
                (record_event (EvKill p SIGTERM) (WSL2Launcher.core s1)) in
  let w4 := record_event (EvKill p WSL2Launcher.SIGKILL) (snd wait) in
  let wait2 := WSL2Launcher.waitForProcessExit fuel p 2000 w4 in
  fst (WSL2Launcher.isServerRunning pidFile s) =
    WSL2Launcher.Returned (WSL2Launcher.mkStatus true (Some p)) ->
  kill (cur (WSL2Launcher.core s1)) p SIGTERM = None ->
  fst wait = Val (Some false) ->
  match kill (cur (snd wait)) p WSL2Launcher.SIGKILL with
  | Some e => cleaned_up pidFile s1 w4 (WSL2Launcher.stopServer fuel pidFile s)
  | None =>
      forall gone, fst wait2 = Val (Some gone) ->
        cleaned_up pidFile s1 (snd wait2) (WSL2Launcher.stopServer fuel pidFile s)
  end.
Proof.
  cbv zeta. intros H Hk Hw. found_server H.
  unfold WSL2Launcher.force_kill. unfold_l. unfold process_kill. unfold_m. cbn.
  rewrite Hk. cbn.
  destruct (WSL2Launcher.waitForProcessExit fuel p 5000 _) as [r w3].
  cbn in Hw |- *. subst r. cbn.
  destruct (kill (cur w3) p WSL2Launcher.SIGKILL) as [e |]; cbn.
  - clean_up.
  - intros gone Hg.
    destruct (WSL2Launcher.waitForProcessExit fuel p 2000 _) as [r w5].
    cbn in Hg |- *. subst r. cbn. clean_up.
Qed.

Lemma stopServer_forced_witness :
  cleaned_up pidFile
    (snd (WSL2Launcher.isServerRunning pidFile (with_pid_file "4242")))
    (snd (WSL2Launcher.waitForProcessExit 10 4242 2000
            (record_event (EvKill 4242 WSL2Launcher.SIGKILL)
               (snd (WSL2Launcher.waitForProcessExit 10 4242 5000
                       (record_event (EvKill 4242 SIGTERM)
                          (WSL2Launcher.core
                             (snd (WSL2Launcher.isServerRunning pidFile
                                     (with_pid_file "4242"))))))))))
    (WSL2Launcher.stopServer 10 pidFile (with_pid_file "4242")).
Proof.
  apply (stopServer_forced 10 pidFile (with_pid_file "4242") 4242
           eq_refl eq_refl eq_refl false).
  reflexivity.
Defined.
